(** * The multipart upload engine of the filesystem object store

    A shallow embedding of [pkg/fs] multipart code: [isValidUploadID],
    [ListMultipartUploads], [concatParts], [NewMultipartUpload],
    [CreateObjectPart], [CompleteMultipartUpload], [ListObjectParts] and
    [AbortMultipartUpload].

    The disk is a finite map from paths to file contents, the session map
    [fs.multiparts.ActiveSession] is a finite map from object keys to session
    descriptors, and every operation is a function from a [World] to an
    outcome and a new [World]: the engine lock makes each call atomic, so a
    call is one transition.  Go strings and byte slices are [string]s (one
    [ascii] per byte); Go [int] and [int64] are [Z]. *)

From Stdlib Require Import ZArith Ascii String List Lia.
From Stdlib Require Import DecimalString DecimalPos DecimalZ.
From stdpp Require Import base option list gmap strings sorting.

Local Open Scope Z_scope.

(** ** Strings and bytes *)

Module Str.

Definition of_list (l : list ascii) : string := string_of_list_ascii l.
Definition to_list (s : string) : list ascii := list_ascii_of_string s.

(** [len s] is Go's [len(s)]. *)
Definition len (s : string) : Z := Z.of_nat (String.length s).

(** [strings.HasPrefix(s, p)]. *)
Definition HasPrefix (s p : string) : bool := String.prefix p s.

(** [s > t] and [s >= t] on Go strings: bytewise lexicographic order. *)
Definition gtb (s t : string) : bool := String.ltb t s.
Definition geb (s t : string) : bool := String.leb t s.

(** The ASCII double quote. *)
Definition quote : ascii := "034"%char.

(** [strings.Trim(s, cutset)] for a one-byte cutset. *)
Fixpoint TrimLeft1 (c : ascii) (l : list ascii) : list ascii :=
  match l with
  | [] => []
  | x :: l' => if Ascii.eqb x c then TrimLeft1 c l' else l
  end.
Definition Trim1 (c : ascii) (s : string) : string :=
  of_list (rev (TrimLeft1 c (rev (TrimLeft1 c (to_list s))))).

(** [strings.ToLower] on the ASCII range. *)
Definition lower_ascii (c : ascii) : ascii :=
  let n := N_of_ascii c in
  if ((65 <=? n) && (n <=? 90))%N then ascii_of_N (n + 32) else c.
Definition ToLower (s : string) : string :=
  of_list (map lower_ascii (to_list s)).

(** [fmt.Sprintf("%d", n)]. *)
Definition itoa (n : Z) : string := NilZero.string_of_int (Z.to_int n).

(** The first [n] bytes, and what follows them. *)
Definition take (n : nat) (s : string) : string := String.substring 0 n s.
Definition drop (n : nat) (s : string) : string :=
  String.substring n (String.length s - n) s.

End Str.

(** ** [encoding/hex] *)

Module hex.

Definition digit (n : N) : ascii :=
  match n with
  | 0 => "0" | 1 => "1" | 2 => "2" | 3 => "3" | 4 => "4" | 5 => "5"
  | 6 => "6" | 7 => "7" | 8 => "8" | 9 => "9" | 10 => "a" | 11 => "b"
  | 12 => "c" | 13 => "d" | 14 => "e" | _ => "f"
  end%N%char.

(** [fromHexChar]: both cases are accepted. *)
Definition undigit (c : ascii) : option N :=
  let n := N_of_ascii c in
  if ((48 <=? n) && (n <=? 57))%N then Some (n - 48)%N
  else if ((97 <=? n) && (n <=? 102))%N then Some (n - 87)%N
  else if ((65 <=? n) && (n <=? 70))%N then Some (n - 55)%N
  else None.

Fixpoint encode (l : list ascii) : list ascii :=
  match l with
  | [] => []
  | c :: l' =>
      digit (N_of_ascii c / 16) :: digit (N_of_ascii c mod 16) :: encode l'
  end.

Fixpoint decode (l : list ascii) : option (list ascii) :=
  match l with
  | [] => Some []
  | [_] => None
  | a :: b :: l' =>
      match undigit a, undigit b, decode l' with
      | Some h, Some k, Some r => Some (ascii_of_N (16 * h + k) :: r)
      | _, _, _ => None
      end
  end.

(** [hex.EncodeToString]: two lowercase digits per byte. *)
Definition EncodeToString (b : string) : string :=
  Str.of_list (encode (Str.to_list b)).

(** [hex.DecodeString]: [None] stands for the error return. *)
Definition DecodeString (s : string) : option string :=
  Str.of_list <$> decode (Str.to_list s).

End hex.

(** ** [path/filepath] *)

Module filepath.

(** [filepath.Join(a, b)].  The names that reach the engine have passed
    [IsValidBucket] and [IsValidObjectName], on which [filepath.Clean] is
    the identity, so joining is concatenation with one separator. *)
Definition Join (a b : string) : string := a +:+ "/" +:+ b.

Fixpoint drop_last_element (r : list ascii) : list ascii :=
  match r with
  | [] => []
  | x :: r' => if Ascii.eqb x "/" then r else drop_last_element r'
  end.

(** [filepath.Dir(p)]: all but the last element, without trailing
    separators; ["."] when nothing is left, ["/"] for the root. *)
Definition Dir (p : string) : string :=
  let d := drop_last_element (rev (Str.to_list p)) in
  match d, Str.TrimLeft1 "/" d with
  | [], _ => "."
  | _ :: _, [] => "/"
  | _ :: _, (_ :: _) as t => Str.of_list (rev t)
  end.

(** The directories [os.MkdirAll(p)] makes sure exist: [p] and each of its
    ancestors. *)
Fixpoint ancestors (acc l : list ascii) : list string :=
  match l with
  | [] => [Str.of_list (rev acc)]
  | x :: l' =>
      (if Ascii.eqb x "/" then
         match acc with [] => [] | _ => [Str.of_list (rev acc)] end
       else []) ++ ancestors (x :: acc) l'
  end.

End filepath.

(** ** Data model *)

(** [PartMetadata]: one uploaded part.  Times are seconds on the wall
    clock. *)
Record PartMetadata := mkPart {
  PartNumber : Z;
  LastModified : Z;
  ETag : string;
  Size : Z;
}.

(** [MultipartSession]: the session descriptor, kept in the session map and
    encoded into the session journal. *)
Record MultipartSession := mkSession {
  UploadID : string;
  Initiated : Z;
  TotalParts : Z;
  Parts : list PartMetadata;
}.

(** [UploadMetadata]: one entry of a session listing. *)
Record UploadMetadata := mkUpload {
  uObject : string;
  uUploadID : string;
  uInitiated : Z;
}.

(** The fields of [BucketMultipartResourcesMetadata] the engine reads or
    writes. *)
Record BucketMultipartResourcesMetadata := mkBucketResources {
  KeyMarker : string;
  UploadIDMarker : string;
  NextKeyMarker : string;
  NextUploadIDMarker : string;
  MaxUploads : Z;
  bIsTruncated : bool;
  Upload : list UploadMetadata;
  Prefix : string;
}.

(** The fields of [ObjectResourcesMetadata] the engine reads or writes. *)
Record ObjectResourcesMetadata := mkObjectResources {
  rBucket : string;
  rObject : string;
  rUploadID : string;
  PartNumberMarker : Z;
  NextPartNumberMarker : Z;
  MaxParts : Z;
  rIsTruncated : bool;
  Part : list PartMetadata;
}.

(** [CompletePart] and the struct [CompleteMultipartUpload], the commit
    manifest; the struct is named [CompleteMultipartUploadXML] here, the
    method of the same name keeps the name. *)
Record CompletePart := mkCompletePart {
  cPartNumber : Z;
  cETag : string;
}.

Record CompleteMultipartUploadXML := mkManifest {
  cPart : list CompletePart;
}.

Record ObjectMetadata := mkObject {
  oBucket : string;
  oObject : string;
  oContentType : string;
  oCreated : Z;
  oMd5 : string;
  oSize : Z;
}.

(** [time.Time{}], the zero time: January 1 of the year 1, 00:00 UTC, in
    seconds of the Unix clock. *)
Definition zeroTime : Z := -62135596800.

(** [ObjectMetadata{}]. *)
Definition emptyObject : ObjectMetadata := mkObject "" "" "" zeroTime "" 0.

(** ** Errors *)

(** The Go [error] values the engine produces.  [PathError] is the
    [*os.PathError] of a missing file, [EOF] is [io.EOF] of a short stream,
    [SyntaxError] is a failed JSON decode and [errorString] is
    [errors.New]. *)
Inductive error :=
  | BucketNameInvalid (Bucket : string)
  | ObjectNameInvalid (Bucket Object : string)
  | BucketNotFound (Bucket : string)
  | InternalError
  | RootPathFull (Path : string)
  | InvalidUploadID (UploadID : string)
  | InvalidDigest (Md5 : string)
  | BadDigest (Md5 Bucket Object : string)
  | SignatureDoesNotMatch
  | MalformedXML
  | InvalidPartOrder
  | errorString (s : string)
  | PathError (Op Path : string)
  | EOF
  | SyntaxError.

(** Modelled from the spec: the package [probe] is not part of the files
    under study, and the spec names the errors without their wrapper.
    [probeError] is a [*probe.Error] that is not nil: the error
    [probe.NewError(err)] makes of a Go error [err] that is not nil;
    [Trace] adds a trace point.  The nil [*probe.Error] is the [None] of
    [option probeError]. *)
Inductive probeError :=
  | probe_NewError (cause : error)
  | probe_Trace (e : probeError).

Module probe.

(** [probe.NewError(e)], as its callers under study use it: for the nil
    error the result is the nil [*probe.Error], which a caller reads as no
    error at all.  The server command relies on it where it hands the
    error of [time.ParseDuration], nil after a call that succeeded, to
    [fatalIf] and goes on. *)
Definition NewError (e : option error) : option probeError :=
  match e with
  | None => None
  | Some cause => Some (probe_NewError cause)
  end.

End probe.

(** [*Signature]: the verifier is consumed through [DoesSignatureMatch]
    alone, which answers a boolean or an error of its own. *)
Inductive SigAnswer :=
  | SigOk (ok : bool)
  | SigErr (perr : probeError).

Record Signature := mkSignature {
  DoesSignatureMatch : string -> SigAnswer;
}.

#[global] Instance PartMetadata_eq_dec : EqDecision PartMetadata.
Proof. solve_decision. Defined.
#[global] Instance MultipartSession_eq_dec : EqDecision MultipartSession.
Proof. solve_decision. Defined.
#[global] Instance error_eq_dec : EqDecision error.
Proof. solve_decision. Defined.

(** ** The platform

    Functions of the Go standard library and of sibling files that the
    engine calls and that are not defined in the file under study.  The laws
    are the facts about them that the proofs use. *)
Class Platform := {
  (** [md5.Sum] and [sha256.Sum256] of a byte string. *)
  md5_Sum : string -> string;
  sha256_Sum : string -> string;
  (** [base64.StdEncoding.DecodeString]. *)
  base64_DecodeString : string -> option string;
  (** [strings.TrimSpace]. *)
  TrimSpace : string -> string;
  (** [json.Encoder.Encode] of a session descriptor (the document and its
      newline) and [json.Decoder.Decode] of the first document of a
      stream. *)
  json_Encode : MultipartSession -> string;
  json_Decode : string -> option MultipartSession;
  (** [xml.Unmarshal] into the manifest struct. *)
  xml_Unmarshal : string -> option CompleteMultipartUploadXML;
  (** The name validators of the package. *)
  IsValidBucket : string -> bool;
  IsValidObjectName : string -> bool;
  (** The first 47 characters of the URL-safe base64 of the SHA-512 of
      [rand ++ bucket ++ object ++ now]. *)
  newUploadID : Z -> string -> string -> Z -> string;

  (** A decoder reads the first document of the stream and nothing else. *)
  json_Decode_Encode :
    ∀ s rest, json_Decode (json_Encode s +:+ rest) = Some s;
  (** A hex string has no white space to trim. *)
  TrimSpace_hex :
    ∀ b, TrimSpace (hex.EncodeToString b) = hex.EncodeToString b;
  (** A trimmed, non-empty base64 text decodes to at least one byte. *)
  base64_nonempty :
    ∀ s b, base64_DecodeString (TrimSpace s) = Some b →
           TrimSpace s ≠ "" → b ≠ "";
}.

(** ** The world

    [files] and [dirs] are the disk under the storage root; [temps] are the
    temp files behind open [atomic.File] handles, keyed by the path they
    would be published at; [ActiveSession] is the session map shared by all
    calls; [savedSession] is what [SaveMultipartsSession] last wrote to the
    configuration file; [availablePct] is the integer percentage the disk
    guard computes from [disk.Stat]; [events] logs each effect in order. *)
Inductive Event :=
  | EvMkdirAll (p : string)
  | EvWriteJournal (p : string)
  | EvFileCreate (target : string)
  | EvPurge (target : string)
  | EvPublish (target : string)
  | EvRemove (p : string)
  | EvSetSession (object : string)
  | EvDeleteSession (object : string)
  | EvSave.

#[global] Instance Event_eq_dec : EqDecision Event.
Proof. solve_decision. Defined.

Record World := mkWorld {
  files : gmap string string;
  dirs : gset string;
  temps : gmap string string;
  ActiveSession : gmap string MultipartSession;
  savedSession : option (gmap string MultipartSession);
  availablePct : Z;
  events : list Event;
}.

Definition set_files (f : gmap string string → gmap string string) (w : World) :=
  mkWorld (f (files w)) (dirs w) (temps w) (ActiveSession w) (savedSession w)
          (availablePct w) (events w).
Definition set_dirs (f : gset string → gset string) (w : World) :=
  mkWorld (files w) (f (dirs w)) (temps w) (ActiveSession w) (savedSession w)
          (availablePct w) (events w).
Definition set_temps (f : gmap string string → gmap string string) (w : World) :=
  mkWorld (files w) (dirs w) (f (temps w)) (ActiveSession w) (savedSession w)
          (availablePct w) (events w).
Definition set_sessions
    (f : gmap string MultipartSession → gmap string MultipartSession) (w : World) :=
  mkWorld (files w) (dirs w) (temps w) (f (ActiveSession w)) (savedSession w)
          (availablePct w) (events w).
Definition set_saved (s : option (gmap string MultipartSession)) (w : World) :=
  mkWorld (files w) (dirs w) (temps w) (ActiveSession w) s
          (availablePct w) (events w).
Definition add_event (e : Event) (w : World) :=
  mkWorld (files w) (dirs w) (temps w) (ActiveSession w) (savedSession w)
          (availablePct w) (events w ++ [e]).

(** [Filesystem]: the receiver's own fields.  The session map behind
    [fs.multiparts] is shared by every copy of the receiver and lives in the
    [World]. *)
Record Filesystem := mkFilesystem {
  path : string;
  minFreeDisk : Z;
}.

(** ** Calls

    A call ends by returning a value with a nil error ([Ret]), by returning
    an error ([Fail]), or by a run-time panic ([Fault]); in each case the
    effects it had until then stay in the world. *)
Inductive outcome (A : Type) : Type :=
  | Ret (a : A)
  | Fail (e : probeError)
  | Fault.
Arguments Ret {A} a.
Arguments Fail {A} e.
Arguments Fault {A}.

Definition M (A : Type) : Type := World → outcome A * World.

#[global] Instance M_ret : MRet M := λ A a w, (Ret a, w).
#[global] Instance M_bind : MBind M := λ A B f m w,
  match m w with
  | (Ret a, w') => f a w'
  | (Fail e, w') => (Fail e, w')
  | (Fault, w') => (Fault, w')
  end.

Definition get : M World := λ w, (Ret w, w).
Definition modify (f : World → World) : M unit := λ w, (Ret tt, f w).
Definition log (e : Event) : M unit := modify (add_event e).
(** [return zero, perr]: the caller finds an error when [perr] is not
    nil, and the zero value with no error when it is. *)
Definition return_with {A} (zero : A) (perr : option probeError) : M A :=
  λ w, match perr with
       | Some e => (Fail e, w)
       | None => (Ret zero, w)
       end.
Definition fail_with {A} (perr : probeError) : M A := λ w, (Fail perr, w).
(** [return ..., probe.NewError(e)] for an [e] that is not nil *)
Definition fail {A} (e : error) : M A := fail_with (probe_NewError e).
(** [return ..., perr.Trace()] *)
Definition fail_Trace {A} (perr : probeError) : M A :=
  fail_with (probe_Trace perr).
Definition panic {A} : M A := λ w, (Fault, w).

(** ** The operating system *)

Module os.

(** [os.Stat(p)] followed by [os.IsNotExist]: does anything exist at [p]?
    I/O failures other than a missing path are not modelled. *)
Definition exists_at (p : string) (w : World) : bool :=
  bool_decide (p ∈ dirs w) || bool_decide (is_Some (files w !! p)).
Definition Stat (p : string) : M bool := λ w, (Ret (exists_at p w), w).

(** [os.Stat(p).Size()] of a regular file. *)
Definition StatSize (p : string) : M (option Z) :=
  λ w, (Ret (Str.len <$> files w !! p), w).

Definition MkdirAll (p : string) : M unit :=
  modify (set_dirs (λ d, list_to_set (filepath.ancestors [] (Str.to_list p)) ∪ d));;
  log (EvMkdirAll p).

(** [os.OpenFile(p, O_RDONLY)] and [ioutil.ReadAll]; also the read side
    of [O_RDWR]. *)
Definition ReadFile (p : string) : M (option string) :=
  λ w, (Ret (files w !! p), w).

(** [os.OpenFile(p, O_WRONLY|O_CREATE)]: the file is created empty when
    it is missing and is left as it is otherwise (there is no
    [O_TRUNC]). *)
Definition OpenCreate (p : string) : M unit :=
  modify (set_files (λ f, match f !! p with Some _ => f | None => <[p:=""]> f end)).

(** A write at offset 0 of a file opened without [O_TRUNC] and without
    [O_APPEND]: the first bytes are overwritten, the rest stays. *)
Definition WriteAtStart (p data : string) : M unit :=
  modify (set_files (λ f,
    <[p := data +:+ Str.drop (String.length data) (default "" (f !! p))]> f));;
  log (EvWriteJournal p).

(** A write to a file opened with [O_APPEND]: the bytes go to the end. *)
Definition Append (p data : string) : M unit :=
  modify (set_files (λ f, <[p := default "" (f !! p) +:+ data]> f));;
  log (EvWriteJournal p).

(** [os.Remove(p)]: a missing file is an error. *)
Definition Remove (p : string) : M (option error) := λ w,
  match files w !! p with
  | Some _ => (Ret None, add_event (EvRemove p) (set_files (delete p) w))
  | None => (Ret (Some (PathError "remove" p)), w)
  end.

(** [os.RemoveAll(p)]: a missing file is not an error. *)
Definition RemoveAll (p : string) : M unit :=
  modify (set_files (delete p));;
  log (EvRemove p).

End os.

(** ** [atomic.File]

    Modelled from the spec: the package [atomic] is not part of the file
    under study.  [FileCreate(path)] gives a writable handle backed by a
    sibling temp file; [Close] renames the temp onto [path];
    [CloseAndPurge] deletes the temp without touching [path]. *)
Module atomic.

Definition FileCreate (target : string) : M unit :=
  modify (set_temps (insert target ""));;
  log (EvFileCreate target).

Definition Write (target data : string) : M unit :=
  modify (set_temps (λ t, <[target := default "" (t !! target) +:+ data]> t)).

Definition CloseAndPurge (target : string) : M unit :=
  modify (set_temps (delete target));;
  log (EvPurge target).

Definition Close (target : string) : M unit :=
  modify (λ w,
    set_temps (delete target)
      (set_files (insert target (default "" (temps w !! target))) w));;
  log (EvPublish target).

End atomic.

(** ** [sort]

    [sort.Sort] is modelled by a merge sort; Go's sort is not stable, so for
    equal keys the order is one of those Go may produce.  [sort.IsSorted]
    answers false as soon as [Less(i, i-1)] holds for some [i]. *)
Module sort.

Fixpoint IsSorted {A} (less : A → A → bool) (l : list A) : bool :=
  match l with
  | a :: l' =>
      match l' with
      | b :: _ => negb (less b a) && IsSorted less l'
      | [] => true
      end
  | [] => true
  end.

Definition Sort {A} (less : A → A → bool) (l : list A) : list A :=
  merge_sort (λ a b, Is_true (negb (less b a))) l.

End sort.

(** [partNumber.Less]: [a[i].PartNumber < a[j].PartNumber]. *)
Definition partNumber_Less (a b : PartMetadata) : bool :=
  PartNumber a <? PartNumber b.

(** Modelled from the spec: [completedParts] is declared in a sibling file;
    the spec knows it only as the order of the manifest by part number.
    Its [Less] is taken to be the one of the sibling type [partNumber]
    above, [a[i].PartNumber < a[j].PartNumber]. *)
Definition completedParts_Less (a b : CompletePart) : bool :=
  cPartNumber a <? cPartNumber b.

(** Modelled from the spec: [byUploadMetadataKey] is declared in a sibling
    file.  Results are sorted by object key ascending. *)
Definition byUploadMetadataKey_Less (a b : UploadMetadata) : bool :=
  String.ltb (uObject a) (uObject b).

(** Modelled from the spec: [isMD5SumEqual] is declared in a sibling file.
    Two hex digests are equal when they agree up to letter case; [true]
    stands for the nil error. *)
Definition isMD5SumEqual (expectedMD5Sum actualMD5Sum : string) : bool :=
  String.eqb (Str.ToLower expectedMD5Sum) (Str.ToLower actualMD5Sum).

(** Modelled from the spec: [SaveMultipartsSession] is declared in a
    sibling file.  It writes the entire session map to the configuration
    file. *)
Definition SaveMultipartsSession : M unit :=
  modify (λ w, set_saved (Some (ActiveSession w)) w);;
  log EvSave.

(** Go's [s[i]] on a slice: out of range is a run-time panic, here
    [None]. *)
Definition index {A} (l : list A) (i : Z) : option A :=
  if i <? 0 then None else l !! Z.to_nat i.

(** ** The engine *)

Section Engine.
Context `{Platform}.

(** Path layout. *)
Definition bucketPathOf (fs : Filesystem) (bucket : string) : string :=
  filepath.Join (path fs) bucket.
Definition objectPathOf (fs : Filesystem) (bucket object : string) : string :=
  filepath.Join (bucketPathOf fs bucket) object.
(** [objectPath + fmt.Sprintf("$%d", n)] *)
Definition partPathOf (objectPath : string) (n : Z) : string :=
  objectPath +:+ "$" +:+ Str.itoa n.
(** [objectPath + "$multiparts"] *)
Definition journalPathOf (objectPath : string) : string :=
  objectPath +:+ "$multiparts".

Definition isValidUploadID (object uploadID : string) (w : World) : bool :=
  match ActiveSession w !! object with
  | None => false
  | Some s => String.eqb uploadID (UploadID s)
  end.

(** *** ListMultipartUploads *)

Definition newUpload (object : string) (session : MultipartSession) : UploadMetadata :=
  mkUpload object (UploadID session) (Initiated session).

(** The body of the [range] loop over the session map, for the entries in
    the order the loop visits them.  [inl] is the early return of a
    truncated listing, [inr] the uploads gathered when the loop ends. *)
Fixpoint listUploadsLoop (resources : BucketMultipartResourcesMetadata)
    (entries : list (string * MultipartSession)) (uploads : list UploadMetadata)
    : BucketMultipartResourcesMetadata + list UploadMetadata :=
  match entries with
  | [] => inr uploads
  | (object, session) :: rest =>
      if Str.HasPrefix object (Prefix resources) then
        if Z.of_nat (length uploads) >? MaxUploads resources then
          inl (mkBucketResources
                 (KeyMarker resources) (UploadIDMarker resources)
                 object (UploadID session)
                 (MaxUploads resources) true
                 (sort.Sort byUploadMetadataKey_Less uploads)
                 (Prefix resources))
        else if negb (String.eqb (KeyMarker resources) "")
                && String.eqb (UploadIDMarker resources) "" then
          if Str.gtb object (KeyMarker resources)
          then listUploadsLoop resources rest (uploads ++ [newUpload object session])
          else listUploadsLoop resources rest uploads
        else if negb (String.eqb (KeyMarker resources) "")
                && negb (String.eqb (UploadIDMarker resources) "") then
          if Str.gtb (UploadID session) (UploadIDMarker resources)
             && Str.geb object (KeyMarker resources)
          then listUploadsLoop resources rest (uploads ++ [newUpload object session])
          else listUploadsLoop resources rest uploads
        else listUploadsLoop resources rest (uploads ++ [newUpload object session])
      else listUploadsLoop resources rest uploads
  end.

(** [order] is the order in which [range] visits the entries of the
    session map: Go leaves it unspecified, so it is an input, and any
    permutation of the entries is possible. *)
Definition ListMultipartUploads (fs : Filesystem) (bucket : string)
    (resources : BucketMultipartResourcesMetadata)
    (order : list (string * MultipartSession))
    : M BucketMultipartResourcesMetadata :=
  if negb (IsValidBucket bucket) then fail (BucketNameInvalid bucket) else
  ex ← os.Stat (bucketPathOf fs bucket);
  if negb ex then fail (BucketNotFound bucket) else
  match listUploadsLoop resources order [] with
  | inl truncated => mret truncated
  | inr uploads =>
      mret (mkBucketResources
              (KeyMarker resources) (UploadIDMarker resources)
              (NextKeyMarker resources) (NextUploadIDMarker resources)
              (MaxUploads resources) (bIsTruncated resources)
              (sort.Sort byUploadMetadataKey_Less uploads)
              (Prefix resources))
  end.

(** *** concatParts

    [target] is the object's [atomic.File]; [hashed] is what the MD5
    hasher behind the multi-writer has received so far.  The result is
    the Go error, if any, and the hasher's input. *)
Fixpoint concatParts (parts : list CompletePart) (objectPath target : string)
    (hashed : string) : M (option probeError * string) :=
  match parts with
  | [] => mret (None, hashed)
  | part :: rest =>
      let recvMD5 := cETag part in
      partFile ← os.ReadFile (partPathOf objectPath (cPartNumber part));
      match partFile with
      | None =>
          mret (Some (probe_NewError
                        (PathError "open" (partPathOf objectPath (cPartNumber part)))),
                hashed)
      | Some obj =>
          let calcMD5Bytes := md5_Sum obj in
          match hex.DecodeString (Str.Trim1 Str.quote recvMD5) with
          | None => mret (Some (probe_NewError (InvalidDigest recvMD5)), hashed)
          | Some recvMD5Bytes =>
              if negb (String.eqb recvMD5Bytes calcMD5Bytes) then
                mret (Some (probe_NewError (BadDigest recvMD5 "" "")), hashed)
              else
                atomic.Write target obj;;
                concatParts rest objectPath target (hashed +:+ obj)
          end
      end
  end.

(** *** NewMultipartUpload

    [rnd] is the value of [rand.Int63()] and [now] the wall clock. *)
Definition NewMultipartUpload (fs : Filesystem) (bucket object : string)
    (rnd now : Z) : M string :=
  w ← get;
  if availablePct w <=? minFreeDisk fs then fail (RootPathFull (path fs)) else
  if negb (IsValidBucket bucket) then fail (BucketNameInvalid bucket) else
  if negb (IsValidObjectName object) then fail (ObjectNameInvalid "" object) else
  let bucketPath := bucketPathOf fs bucket in
  ex ← os.Stat bucketPath;
  if negb ex then fail (BucketNotFound bucket) else
  let objectPath := filepath.Join bucketPath object in
  let objectDir := filepath.Dir objectPath in
  exd ← os.Stat objectDir;
  (if negb exd then os.MkdirAll objectDir else mret tt);;
  let uploadID := newUploadID rnd bucket object now in
  os.OpenCreate (journalPathOf objectPath);;
  let mpartSession := mkSession uploadID now 0 [] in
  modify (set_sessions (insert object mpartSession));;
  log (EvSetSession object);;
  os.WriteAtStart (journalPathOf objectPath) (json_Encode mpartSession);;
  SaveMultipartsSession;;
  mret uploadID.

(** *** CreateObjectPart *)

(** [io.CopyN(mw, data, size)] into the part's [atomic.File] and the two
    hashers: what was copied, and [io.EOF] when the stream ends before
    [size] bytes. *)
Definition io_CopyN (target data : string) (size : Z) : M (string * option error) :=
  let copied := Str.take (Z.to_nat size) data in
  atomic.Write target copied;;
  mret (copied, if Str.len copied <? size then Some EOF else None).

Definition CreateObjectPart (fs : Filesystem)
    (bucket object uploadID expectedMD5Sum : string) (partID size : Z)
    (data : string) (signature : option Signature) (now : Z) : M string :=
  w ← get;
  if availablePct w <=? minFreeDisk fs then fail (RootPathFull (path fs)) else
  if partID <=? 0 then
    fail (errorString "invalid part id, cannot be zero or less than zero") else
  if negb (IsValidBucket bucket) then fail (BucketNameInvalid bucket) else
  if negb (IsValidObjectName object) then fail (ObjectNameInvalid bucket object) else
  if negb (isValidUploadID object uploadID w) then fail (InvalidUploadID uploadID) else
  expectedMD5Sum ←
    (if negb (String.eqb (TrimSpace expectedMD5Sum) "") then
       match base64_DecodeString (TrimSpace expectedMD5Sum) with
       | None => fail (InvalidDigest expectedMD5Sum)
       | Some expectedMD5SumBytes => mret (hex.EncodeToString expectedMD5SumBytes)
       end
     else mret expectedMD5Sum);
  let bucketPath := bucketPathOf fs bucket in
  ex ← os.Stat bucketPath;
  if negb ex then fail (BucketNotFound bucket) else
  let objectPath := filepath.Join bucketPath object in
  let partPath := partPathOf objectPath partID in
  atomic.FileCreate partPath;;
  '(copied, err) ← io_CopyN partPath data size;
  match err with
  | Some e => atomic.CloseAndPurge partPath;; fail e
  | None =>
  let md5sum := hex.EncodeToString (md5_Sum copied) in
  if negb (String.eqb (TrimSpace expectedMD5Sum) "")
     && negb (isMD5SumEqual (TrimSpace expectedMD5Sum) md5sum) then
    atomic.CloseAndPurge partPath;;
    fail (BadDigest expectedMD5Sum bucket object)
  else
  match
    match signature with
    | Some sig =>
        match DoesSignatureMatch sig (hex.EncodeToString (sha256_Sum copied)) with
        | SigErr perr => Some (probe_Trace perr)
        | SigOk false => Some (probe_NewError SignatureDoesNotMatch)
        | SigOk true => None
        end
    | None => None
    end
  with
  | Some perr => atomic.CloseAndPurge partPath;; fail_with perr
  | None =>
  atomic.Close partPath;;
  fi ← os.StatSize partPath;
  match fi with
  | None => fail (PathError "stat" partPath)
  | Some fiSize =>
  let partMetadata := mkPart partID now md5sum fiSize in
  multiPartfile ← os.ReadFile (journalPathOf objectPath);
  match multiPartfile with
  | None => fail (PathError "open" (journalPathOf objectPath))
  | Some journal =>
  match json_Decode journal with
  | None => fail SyntaxError
  | Some deserializedMultipartSession =>
  let appended :=
    mkSession (UploadID deserializedMultipartSession)
              (Initiated deserializedMultipartSession)
              (TotalParts deserializedMultipartSession + 1)
              (Parts deserializedMultipartSession ++ [partMetadata]) in
  modify (set_sessions (insert object appended));;
  log (EvSetSession object);;
  (* the map holds a pointer to the descriptor that is sorted next, so the
     sort shows through the map *)
  let sorted :=
    mkSession (UploadID appended) (Initiated appended) (TotalParts appended)
              (sort.Sort partNumber_Less (Parts appended)) in
  modify (set_sessions (insert object sorted));;
  os.Append (journalPathOf objectPath) (json_Encode sorted);;
  mret (ETag partMetadata)
  end end end end end.

(** *** CompleteMultipartUpload *)

(** The loop that removes the manifest's part files; it stops at the
    first [os.Remove] that fails. *)
Fixpoint removeParts (parts : list CompletePart) (objectPath : string)
    : M (option error) :=
  match parts with
  | [] => mret None
  | part :: rest =>
      err ← os.Remove (partPathOf objectPath (cPartNumber part));
      match err with
      | Some e => mret (Some e)
      | None => removeParts rest objectPath
      end
  end.

Definition CompleteMultipartUpload (fs : Filesystem)
    (bucket object uploadID data : string) (signature : option Signature)
    (now : Z) : M ObjectMetadata :=
  w ← get;
  if negb (IsValidBucket bucket) then fail (BucketNameInvalid bucket) else
  if negb (IsValidObjectName object) then fail (ObjectNameInvalid bucket object) else
  if negb (isValidUploadID object uploadID w) then fail (InvalidUploadID uploadID) else
  let bucketPath := bucketPathOf fs bucket in
  ex ← os.Stat bucketPath;
  if negb ex then fail (BucketNotFound bucket) else
  let objectPath := filepath.Join bucketPath object in
  atomic.FileCreate objectPath;;
  (* partBytes, err := ioutil.ReadAll(data): the manifest is read whole and
     err is the nil error from here on *)
  let partBytes := data in
  let err : option error := None in
  match
    match signature with
    | Some sig =>
        match DoesSignatureMatch sig (hex.EncodeToString (sha256_Sum partBytes)) with
        | SigErr perr => Some (probe.NewError err)
        | SigOk false => Some (probe.NewError (Some SignatureDoesNotMatch))
        | SigOk true => None
        end
    | None => None
    end
  with
  | Some returned =>
      atomic.CloseAndPurge objectPath;; return_with emptyObject returned
  | None =>
  match xml_Unmarshal partBytes with
  | None => atomic.CloseAndPurge objectPath;; fail MalformedXML
  | Some parts =>
  if negb (sort.IsSorted completedParts_Less (cPart parts)) then
    atomic.CloseAndPurge objectPath;; fail InvalidPartOrder
  else
  '(cerr, hashed) ← concatParts (cPart parts) objectPath objectPath "";
  match cerr with
  | Some perr => atomic.CloseAndPurge objectPath;; fail_Trace perr
  | None =>
  modify (set_sessions (delete object));;
  log (EvDeleteSession object);;
  rerr ← removeParts (cPart parts) objectPath;
  match rerr with
  | Some e => atomic.CloseAndPurge objectPath;; fail e
  | None =>
  jerr ← os.Remove (journalPathOf objectPath);
  match jerr with
  | Some e => atomic.CloseAndPurge objectPath;; fail e
  | None =>
  SaveMultipartsSession;;
  atomic.Close objectPath;;
  st ← os.StatSize objectPath;
  match st with
  | None => fail (PathError "stat" objectPath)
  | Some stSize =>
  mret (mkObject bucket object "application/octet-stream" now
                 (hex.EncodeToString (md5_Sum hashed)) stSize)
  end end end end end end.

(** *** ListObjectParts *)

(** [count] iterations of the [for] loop from [i]: [None] is the panic of
    an index out of range, [inl] the early return of a truncated listing,
    [inr] the parts gathered when the loop ends. *)
Fixpoint listPartsLoop (count : nat) (i : Z) (session : MultipartSession)
    (resources : ObjectResourcesMetadata) (parts : list PartMetadata)
    : option (ObjectResourcesMetadata + list PartMetadata) :=
  match count with
  | O => Some (inr parts)
  | S count' =>
      if Z.of_nat (length parts) >? MaxParts resources then
        Some (inl (mkObjectResources
                     (rBucket resources) (rObject resources) (rUploadID resources)
                     (PartNumberMarker resources) i (MaxParts resources) true
                     (sort.Sort partNumber_Less parts)))
      else
        match index (Parts session) (i - 1) with
        | None => None
        | Some p => listPartsLoop count' (i + 1) session resources (parts ++ [p])
        end
  end.

Definition ListObjectParts (fs : Filesystem) (bucket object : string)
    (resources : ObjectResourcesMetadata) : M ObjectResourcesMetadata :=
  w ← get;
  if negb (IsValidBucket bucket) then fail (BucketNameInvalid bucket) else
  if negb (IsValidObjectName object) then fail (ObjectNameInvalid bucket object) else
  if negb (isValidUploadID object (rUploadID resources) w) then
    fail (InvalidUploadID (rUploadID resources)) else
  let objectResourcesMetadata :=
    mkObjectResources bucket object (rUploadID resources)
      (PartNumberMarker resources) (NextPartNumberMarker resources)
      (MaxParts resources) (rIsTruncated resources) (Part resources) in
  let startPartNumber :=
    if PartNumberMarker objectResourcesMetadata =? 0 then 1
    else PartNumberMarker objectResourcesMetadata in
  let bucketPath := bucketPathOf fs bucket in
  ex ← os.Stat bucketPath;
  if negb ex then fail (BucketNotFound bucket) else
  let objectPath := filepath.Join bucketPath object in
  multiPartfile ← os.ReadFile (journalPathOf objectPath);
  match multiPartfile with
  | None => fail (PathError "open" (journalPathOf objectPath))
  | Some journal =>
  match json_Decode journal with
  | None => fail SyntaxError
  | Some deserializedMultipartSession =>
  (* for i := startPartNumber; i <= TotalParts; i++ *)
  match listPartsLoop
          (Z.to_nat (TotalParts deserializedMultipartSession - startPartNumber + 1))
          startPartNumber deserializedMultipartSession objectResourcesMetadata []
  with
  | None => panic
  | Some (inl truncated) => mret truncated
  | Some (inr parts) =>
      mret (mkObjectResources
              (rBucket objectResourcesMetadata) (rObject objectResourcesMetadata)
              (rUploadID objectResourcesMetadata)
              (PartNumberMarker objectResourcesMetadata)
              (NextPartNumberMarker objectResourcesMetadata)
              (MaxParts objectResourcesMetadata)
              (rIsTruncated objectResourcesMetadata)
              (sort.Sort partNumber_Less parts))
  end end end.

(** *** AbortMultipartUpload *)

Fixpoint removeAllParts (parts : list PartMetadata) (objectPath : string) : M unit :=
  match parts with
  | [] => mret tt
  | part :: rest =>
      os.RemoveAll (partPathOf objectPath (PartNumber part));;
      removeAllParts rest objectPath
  end.

Definition AbortMultipartUpload (fs : Filesystem)
    (bucket object uploadID : string) : M unit :=
  w ← get;
  if negb (IsValidBucket bucket) then fail (BucketNameInvalid bucket) else
  if negb (IsValidObjectName object) then fail (ObjectNameInvalid bucket object) else
  if negb (isValidUploadID object uploadID w) then fail (InvalidUploadID uploadID) else
  let bucketPath := bucketPathOf fs bucket in
  ex ← os.Stat bucketPath;
  if negb ex then fail (BucketNotFound bucket) else
  let objectPath := filepath.Join bucketPath object in
  match ActiveSession w !! object with
  | None => panic
  | Some session =>
  removeAllParts (Parts session) objectPath;;
  modify (set_sessions (delete object));;
  log (EvDeleteSession object);;
  os.RemoveAll (journalPathOf objectPath);;
  mret tt
  end.

End Engine.

(** ** A small platform

    A concrete platform on which the engine runs inside Rocq.  The digests
    are tags in front of the data, base64 and white-space trimming are the
    identity, and documents are written in a self-delimiting notation:
    a natural number in unary closed by ["0"], a string as its length and
    its bytes, a list as its length and its items. *)
Module Toy.

Definition parser (A : Type) : Type := list ascii → option (A * list ascii).

Fixpoint enc_nat (n : nat) : list ascii :=
  match n with
  | O => ["0"%char]
  | S n' => "1"%char :: enc_nat n'
  end.

Fixpoint dec_nat (l : list ascii) : option (nat * list ascii) :=
  match l with
  | c :: l' =>
      if Ascii.eqb c "0" then Some (O, l')
      else if Ascii.eqb c "1" then
        match dec_nat l' with
        | Some (n, r) => Some (S n, r)
        | None => None
        end
      else None
  | [] => None
  end.

Definition enc_Z (z : Z) : list ascii :=
  (if z <? 0 then "-"%char else "+"%char) :: enc_nat (Z.abs_nat z).

Definition dec_Z : parser Z := λ l,
  match l with
  | c :: l' =>
      match dec_nat l' with
      | Some (n, r) =>
          if Ascii.eqb c "-" then Some (- Z.of_nat n, r)
          else if Ascii.eqb c "+" then Some (Z.of_nat n, r)
          else None
      | None => None
      end
  | [] => None
  end.

Fixpoint dec_bytes (n : nat) (l : list ascii) : option (list ascii * list ascii) :=
  match n with
  | O => Some ([], l)
  | S n' =>
      match l with
      | c :: l' =>
          match dec_bytes n' l' with
          | Some (b, r) => Some (c :: b, r)
          | None => None
          end
      | [] => None
      end
  end.

Definition enc_string (s : string) : list ascii :=
  enc_nat (String.length s) ++ Str.to_list s.

Definition dec_string : parser string := λ l,
  match dec_nat l with
  | Some (n, r) =>
      match dec_bytes n r with
      | Some (b, r') => Some (Str.of_list b, r')
      | None => None
      end
  | None => None
  end.

Fixpoint dec_items {A} (p : parser A) (n : nat) (l : list ascii)
    : option (list A * list ascii) :=
  match n with
  | O => Some ([], l)
  | S n' =>
      match p l with
      | Some (a, r) =>
          match dec_items p n' r with
          | Some (items, r') => Some (a :: items, r')
          | None => None
          end
      | None => None
      end
  end.

Definition enc_list {A} (enc : A → list ascii) (items : list A) : list ascii :=
  enc_nat (length items) ++ concat (map enc items).

Definition dec_list {A} (p : parser A) : parser (list A) := λ l,
  match dec_nat l with
  | Some (n, r) => dec_items p n r
  | None => None
  end.

Definition enc_part (p : PartMetadata) : list ascii :=
  enc_Z (PartNumber p) ++ enc_Z (LastModified p)
    ++ enc_string (ETag p) ++ enc_Z (Size p).

Definition dec_part : parser PartMetadata := λ l,
  match dec_Z l with
  | Some (n, r1) =>
      match dec_Z r1 with
      | Some (t, r2) =>
          match dec_string r2 with
          | Some (e, r3) =>
              match dec_Z r3 with
              | Some (sz, r4) => Some (mkPart n t e sz, r4)
              | None => None
              end
          | None => None
          end
      | None => None
      end
  | None => None
  end.

Definition enc_session (s : MultipartSession) : list ascii :=
  enc_string (UploadID s) ++ enc_Z (Initiated s)
    ++ enc_Z (TotalParts s) ++ enc_list enc_part (Parts s).

Definition dec_session : parser MultipartSession := λ l,
  match dec_string l with
  | Some (u, r1) =>
      match dec_Z r1 with
      | Some (i, r2) =>
          match dec_Z r2 with
          | Some (t, r3) =>
              match dec_list dec_part r3 with
              | Some (ps, r4) => Some (mkSession u i t ps, r4)
              | None => None
              end
          | None => None
          end
      | None => None
      end
  | None => None
  end.

Definition enc_complete_part (p : CompletePart) : list ascii :=
  enc_Z (cPartNumber p) ++ enc_string (cETag p).

Definition dec_complete_part : parser CompletePart := λ l,
  match dec_Z l with
  | Some (n, r1) =>
      match dec_string r1 with
      | Some (e, r2) => Some (mkCompletePart n e, r2)
      | None => None
      end
  | None => None
  end.

(** The manifest a client sends for the parts [ps]. *)
Definition manifest (ps : list CompletePart) : string :=
  Str.of_list (enc_list enc_complete_part ps).

Definition Encode (s : MultipartSession) : string := Str.of_list (enc_session s).
Definition Decode (doc : string) : option MultipartSession :=
  fst <$> dec_session (Str.to_list doc).
Definition Unmarshal (body : string) : option CompleteMultipartUploadXML :=
  match dec_list dec_complete_part (Str.to_list body) with
  | Some (ps, []) => Some (mkManifest ps)
  | _ => None
  end.

Definition md5 (data : string) : string := "#" +:+ data.
Definition sha256 (data : string) : string := "%" +:+ data.

Fixpoint has_dollar (s : string) : bool :=
  match s with
  | EmptyString => false
  | String c s' => Ascii.eqb c "$" || has_dollar s'
  end.

Definition valid_bucket (b : string) : bool := negb (String.eqb b "").
Definition valid_object (o : string) : bool :=
  negb (String.eqb o "") && negb (has_dollar o).

Definition upload_id (rnd : Z) (bucket object : string) (now : Z) : string :=
  "id-" +:+ Str.itoa rnd +:+ "-" +:+ bucket +:+ "-" +:+ object +:+ "-" +:+ Str.itoa now.

End Toy.

(** * Facts about strings, digests and paths *)

Module StrFacts.

Lemma to_list_of_list l : Str.to_list (Str.of_list l) = l.
Proof. apply list_ascii_of_string_of_list_ascii. Qed.

Lemma of_list_to_list s : Str.of_list (Str.to_list s) = s.
Proof. apply string_of_list_ascii_of_string. Qed.

Lemma app_cons c a b : String c a +:+ b = String c (a +:+ b).
Proof. reflexivity. Qed.

Lemma app_nil_l a : "" +:+ a = a.
Proof. reflexivity. Qed.

Lemma to_list_app a b : Str.to_list (a +:+ b) = Str.to_list a ++ Str.to_list b.
Proof.
  induction a as [|c a IH]; [done|].
  rewrite app_cons. simpl. by rewrite <- IH.
Qed.

Lemma of_list_app l k : Str.of_list (l ++ k) = Str.of_list l +:+ Str.of_list k.
Proof.
  induction l as [|c l IH]; [done|].
  simpl. by rewrite app_cons, <- IH.
Qed.

Lemma to_list_inj a b : Str.to_list a = Str.to_list b → a = b.
Proof.
  intros E. rewrite <- (of_list_to_list a), <- (of_list_to_list b).
  by rewrite E.
Qed.

Lemma app_assoc a b c : (a +:+ b) +:+ c = a +:+ (b +:+ c).
Proof.
  induction a as [|x a IH]; [done|].
  by rewrite !app_cons, IH.
Qed.

Lemma app_nil_r a : a +:+ "" = a.
Proof.
  induction a as [|x a IH]; [done|].
  by rewrite app_cons, IH.
Qed.

Lemma length_app a b : String.length (a +:+ b) = (String.length a + String.length b)%nat.
Proof.
  induction a as [|x a IH]; [done|].
  rewrite app_cons. simpl. by rewrite IH.
Qed.

Lemma app_inv_head s a b : s +:+ a = s +:+ b → a = b.
Proof.
  induction s as [|x s IH]; [done|].
  rewrite !app_cons. intros [= E]; auto.
Qed.

(** Appending a non-empty suffix changes a string. *)
Lemma app_suffix_ne s a : a ≠ "" → s +:+ a ≠ s.
Proof.
  intros Ha E. apply Ha.
  apply (app_inv_head s). by rewrite app_nil_r.
Qed.

Lemma eqb_false_ne a b : a ≠ b → String.eqb a b = false.
Proof. intros; by apply String.eqb_neq. Qed.

Lemma take_app a b : Str.take (String.length a) (a +:+ b) = a.
Proof.
  unfold Str.take. induction a as [|x a IH].
  - by destruct b.
  - rewrite app_cons. simpl. by rewrite IH.
Qed.

End StrFacts.

Module HexFacts.

Lemma undigit_digit_hi c : hex.undigit (hex.digit (N_of_ascii c / 16)) = Some (N_of_ascii c / 16)%N.
Proof. by destruct c as [[] [] [] [] [] [] [] []]. Qed.

Lemma undigit_digit_lo c : hex.undigit (hex.digit (N_of_ascii c mod 16)) = Some (N_of_ascii c mod 16)%N.
Proof. by destruct c as [[] [] [] [] [] [] [] []]. Qed.

Lemma byte_of_digits c :
  ascii_of_N (16 * (N_of_ascii c / 16) + N_of_ascii c mod 16) = c.
Proof. by destruct c as [[] [] [] [] [] [] [] []]. Qed.

Lemma decode_encode l : hex.decode (hex.encode l) = Some l.
Proof.
  induction l as [|c l IH]; [done|].
  cbn [hex.encode hex.decode].
  by rewrite undigit_digit_hi, undigit_digit_lo, IH, byte_of_digits.
Qed.

(** Decoding undoes encoding, so encoding is injective. *)
Lemma DecodeString_EncodeToString b :
  hex.DecodeString (hex.EncodeToString b) = Some b.
Proof.
  unfold hex.DecodeString, hex.EncodeToString.
  rewrite StrFacts.to_list_of_list, decode_encode. simpl.
  by rewrite StrFacts.of_list_to_list.
Qed.

Lemma EncodeToString_inj a b :
  hex.EncodeToString a = hex.EncodeToString b → a = b.
Proof.
  intros E.
  assert (Some a = Some b) as [= ->]; [|done].
  by rewrite <- !DecodeString_EncodeToString, E.
Qed.

Lemma lower_digit_hi c :
  Str.lower_ascii (hex.digit (N_of_ascii c / 16)) = hex.digit (N_of_ascii c / 16).
Proof. by destruct c as [[] [] [] [] [] [] [] []]. Qed.

Lemma lower_digit_lo c :
  Str.lower_ascii (hex.digit (N_of_ascii c mod 16)) = hex.digit (N_of_ascii c mod 16).
Proof. by destruct c as [[] [] [] [] [] [] [] []]. Qed.

(** The encoder writes lowercase digits. *)
Lemma ToLower_EncodeToString b :
  Str.ToLower (hex.EncodeToString b) = hex.EncodeToString b.
Proof.
  unfold Str.ToLower, hex.EncodeToString.
  rewrite StrFacts.to_list_of_list. f_equal.
  induction (Str.to_list b) as [|c l IH]; [done|].
  cbn [hex.encode map]. by rewrite lower_digit_hi, lower_digit_lo, IH.
Qed.

Lemma EncodeToString_nonempty b : b ≠ "" → hex.EncodeToString b ≠ "".
Proof. by destruct b. Qed.

(** Two encoded digests are equal up to case exactly when the digests are
    equal. *)
Lemma isMD5SumEqual_hex a b :
  isMD5SumEqual (hex.EncodeToString a) (hex.EncodeToString b) = bool_decide (a = b).
Proof.
  unfold isMD5SumEqual. rewrite !ToLower_EncodeToString.
  case_bool_decide as E.
  - subst. apply String.eqb_refl.
  - apply String.eqb_neq. intros E'. by apply E, EncodeToString_inj.
Qed.

End HexFacts.

Module ToyFacts.
Import Toy.

Lemma dec_enc_nat n rest : dec_nat (enc_nat n ++ rest) = Some (n, rest).
Proof. induction n as [|n IH]; simpl; [done | by rewrite IH]. Qed.

Lemma dec_enc_Z z rest : dec_Z (enc_Z z ++ rest) = Some (z, rest).
Proof.
  unfold dec_Z, enc_Z. simpl. rewrite dec_enc_nat.
  destruct (Z.ltb_spec z 0); simpl; do 2 f_equal; lia.
Qed.

Lemma dec_bytes_app l rest : dec_bytes (length l) (l ++ rest) = Some (l, rest).
Proof. induction l as [|c l IH]; simpl; [done | by rewrite IH]. Qed.

Lemma length_to_list s : length (Str.to_list s) = String.length s.
Proof. induction s as [|c s IH]; simpl; [done | by rewrite IH]. Qed.

Lemma dec_enc_string s rest : dec_string (enc_string s ++ rest) = Some (s, rest).
Proof.
  unfold dec_string, enc_string.
  rewrite <- app_assoc, dec_enc_nat, <- length_to_list, dec_bytes_app.
  by rewrite StrFacts.of_list_to_list.
Qed.

Lemma dec_enc_items {A} (enc : A → list ascii) (p : parser A) :
  (∀ a rest, p (enc a ++ rest) = Some (a, rest)) →
  ∀ items rest,
    dec_items p (length items) (concat (map enc items) ++ rest) = Some (items, rest).
Proof.
  intros Hp. induction items as [|a items IH]; intros rest; simpl; [done|].
  by rewrite <- app_assoc, Hp, IH.
Qed.

Lemma dec_enc_list {A} (enc : A → list ascii) (p : parser A) :
  (∀ a rest, p (enc a ++ rest) = Some (a, rest)) →
  ∀ items rest, dec_list p (enc_list enc items ++ rest) = Some (items, rest).
Proof.
  intros Hp items rest. unfold dec_list, enc_list.
  rewrite <- app_assoc, dec_enc_nat. by apply dec_enc_items.
Qed.

Lemma dec_enc_part p rest : dec_part (enc_part p ++ rest) = Some (p, rest).
Proof.
  unfold dec_part, enc_part. rewrite <- !app_assoc.
  rewrite dec_enc_Z, dec_enc_Z, dec_enc_string, dec_enc_Z. by destruct p.
Qed.

Lemma dec_enc_session s rest : dec_session (enc_session s ++ rest) = Some (s, rest).
Proof.
  unfold dec_session, enc_session. rewrite <- !app_assoc.
  rewrite dec_enc_string, dec_enc_Z, dec_enc_Z.
  rewrite (dec_enc_list enc_part dec_part dec_enc_part). by destruct s.
Qed.

Lemma Decode_Encode s rest : Decode (Encode s +:+ rest) = Some s.
Proof.
  unfold Decode, Encode.
  by rewrite StrFacts.to_list_app, StrFacts.to_list_of_list, dec_enc_session.
Qed.

End ToyFacts.

(** The small platform satisfies the platform's laws. *)
#[local] Instance toy_platform : Platform.
Proof.
  refine {|
    md5_Sum := Toy.md5;
    sha256_Sum := Toy.sha256;
    base64_DecodeString := λ s, Some s;
    TrimSpace := λ s, s;
    json_Encode := Toy.Encode;
    json_Decode := Toy.Decode;
    xml_Unmarshal := Toy.Unmarshal;
    IsValidBucket := Toy.valid_bucket;
    IsValidObjectName := Toy.valid_object;
    newUploadID := Toy.upload_id;
  |}.
  - apply ToyFacts.Decode_Encode.
  - reflexivity.
  - intros s b [= ->] Hs. exact Hs.
Defined.

(** * The engine on a concrete disk

    The storage root ["/data"] with one bucket ["b"], ten percent of minimum
    free space and half of the disk free. *)
Module Scenario.

Definition fs : Filesystem := mkFilesystem "/data" 10.

Definition empty_disk : World :=
  mkWorld ∅ {["/data/b"]} ∅ ∅ None 50 [].

(** The world after a call, and its answer. *)
Definition after {A} (m : M A) (w : World) : World := (m w).2.
Definition answer {A} (m : M A) (w : World) : outcome A := (m w).1.

Definition uid : string := Toy.upload_id 7 "b" "o" 1.

(** A session for object ["o"], then part 1 = ["hello"], then part 2 =
    ["world"]. *)
Definition started : World :=
  after (NewMultipartUpload fs "b" "o" 7 1) empty_disk.
Definition one_part : World :=
  after (CreateObjectPart fs "b" "o" uid "" 1 5 "hello" None 2) started.
Definition two_parts : World :=
  after (CreateObjectPart fs "b" "o" uid "" 2 5 "world" None 3) one_part.

Definition etag (data : string) : string := hex.EncodeToString (Toy.md5 data).

End Scenario.

(** * Running a call step by step *)

Ltac unfold_M :=
  unfold os.Stat, os.StatSize, os.ReadFile, os.OpenCreate, os.WriteAtStart,
    os.Append, os.RemoveAll, os.MkdirAll, atomic.FileCreate, atomic.Write,
    atomic.CloseAndPurge, atomic.Close, SaveMultipartsSession in *;
  unfold log, fail, return_with, probe.NewError, fail_Trace in *;
  unfold fail_with, panic, get, modify, mbind, M_bind, mret, M_ret in *.

(** Rewrite with the hypotheses that decide the tests of a call, reducing
    after each. *)
Ltac step_with H := rewrite ?H; simpl.

Section PathFacts.

Lemma partPath_ne objectPath n : partPathOf objectPath n ≠ objectPath.
Proof. unfold partPathOf. by apply StrFacts.app_suffix_ne. Qed.

Lemma journalPath_ne objectPath : journalPathOf objectPath ≠ objectPath.
Proof. unfold journalPathOf. by apply StrFacts.app_suffix_ne. Qed.

End PathFacts.

Lemma length_take n s : String.length (Str.take n s) = Nat.min n (String.length s).
Proof.
  unfold Str.take. revert n.
  induction s as [|c s IH]; intros [|n]; simpl; try done.
  change (substring 0 n s) with (Str.take n s) in *.
  unfold Str.take. by rewrite IH.
Qed.

(** A stream with at least [size] bytes is copied without [io.EOF]. *)
Lemma CopyN_enough size data :
  size ≤ Str.len data → (Str.len (Str.take (Z.to_nat size) data) <? size) = false.
Proof.
  intros Hle. apply Z.ltb_ge. unfold Str.len in *. rewrite length_take. lia.
Qed.

(** * Digest and signature failures *)

Section Failures.
Context `{Platform}.

(** C6 (as amended): a [CreateObjectPart] call that passes validation,
    receives its [size] bytes and carries a non-empty [expectedMD5Sum]
    that decodes to a digest other than the MD5 of the streamed bytes
    fails with [BadDigest]; the temp file of the part is purged and the
    disk, the session map and the persisted map are as before the call.
    In particular no file appears at the part path, and a file that an
    earlier upload of the same part left there stays. *)
Theorem C6_bad_digest_leaves_state fs bucket object uploadID expectedMD5Sum
    partID size data signature now w digest :
  (availablePct w <=? minFreeDisk fs) = false →
  0 < partID →
  IsValidBucket bucket = true →
  IsValidObjectName object = true →
  isValidUploadID object uploadID w = true →
  os.exists_at (bucketPathOf fs bucket) w = true →
  size ≤ Str.len data →
  TrimSpace expectedMD5Sum ≠ "" →
  base64_DecodeString (TrimSpace expectedMD5Sum) = Some digest →
  digest ≠ md5_Sum (Str.take (Z.to_nat size) data) →
  ∃ w',
    CreateObjectPart fs bucket object uploadID expectedMD5Sum partID size data
      signature now w
    = (Fail (probe_NewError
               (BadDigest (hex.EncodeToString digest) bucket object)), w')
    ∧ files w' = files w
    ∧ ActiveSession w' = ActiveSession w
    ∧ savedSession w' = savedSession w
    ∧ temps w' !! partPathOf (objectPathOf fs bucket object) partID = None.
Proof.
  intros Hfull Hid Hb Ho Hu He Hsz Hne Hdec Hdiff.
  assert (digest ≠ "") as Hd by (eapply base64_nonempty; eauto).
  unfold CreateObjectPart, io_CopyN. unfold_M. simpl.
  rewrite Hfull. simpl.
  destruct (Z.leb_spec partID 0) as [?|_]; [lia|]. simpl.
  rewrite Hb, Ho, Hu. simpl.
  rewrite (StrFacts.eqb_false_ne _ _ Hne), Hdec. simpl.
  rewrite He. simpl.
  rewrite (CopyN_enough _ _ Hsz). simpl.
  rewrite TrimSpace_hex.
  rewrite (StrFacts.eqb_false_ne _ _ (HexFacts.EncodeToString_nonempty _ Hd)).
  rewrite HexFacts.isMD5SumEqual_hex.
  rewrite bool_decide_eq_false_2 by done. simpl.
  eexists; split; [reflexivity|]. simpl.
  repeat split. apply lookup_delete_eq.
Qed.


End Failures.

(** C6, the claim as stated fails: after part 1 = ["hello"] is stored, a
    second upload of part 1 with the digest of ["world"] fails with
    [BadDigest], and yet a file exists at the part path afterwards. *)
Lemma C6_bad_digest_keeps_earlier_part :
  Scenario.answer
    (CreateObjectPart Scenario.fs "b" "o" Scenario.uid (Toy.md5 "world") 1 5
       "hello" None 3) Scenario.one_part
  = Fail (probe_NewError (BadDigest (Scenario.etag "world") "b" "o"))
  ∧ files (Scenario.after
             (CreateObjectPart Scenario.fs "b" "o" Scenario.uid (Toy.md5 "world")
                1 5 "hello" None 3) Scenario.one_part)
      !! partPathOf (objectPathOf Scenario.fs "b" "o") 1 = Some "hello".
Proof. split; vm_compute; reflexivity. Qed.

Lemma C6_bad_digest_leaves_state_witness :
  ∃ w',
    CreateObjectPart Scenario.fs "b" "o" Scenario.uid (Toy.md5 "world") 1 5
      "hello" None 3 Scenario.one_part
    = (Fail (probe_NewError
               (BadDigest (hex.EncodeToString (Toy.md5 "world")) "b" "o")), w')
    ∧ files w' = files Scenario.one_part
    ∧ ActiveSession w' = ActiveSession Scenario.one_part
    ∧ savedSession w' = savedSession Scenario.one_part
    ∧ temps w' !! partPathOf (objectPathOf Scenario.fs "b" "o") 1 = None.
Proof.
  apply (C6_bad_digest_leaves_state (H := toy_platform));
    solve [ reflexivity | vm_compute; congruence ].
Defined.

(** A verifier that fails with an error of its own. *)
Definition broken_verifier : Signature :=
  mkSignature (λ _, SigErr (probe_NewError InternalError)).



(** * What a successful call did *)

(** The descriptor [CreateObjectPart] builds from the decoded one. *)
Definition appendPart (d : MultipartSession) (part : PartMetadata) : MultipartSession :=
  mkSession (UploadID d) (Initiated d) (TotalParts d + 1)
            (sort.Sort partNumber_Less (Parts d ++ [part])).

Lemma itoa_ne_multiparts n : Str.itoa n ≠ "multiparts".
Proof. unfold Str.itoa. by destruct (Z.to_int n) as [[]|[]]. Qed.

Lemma partPath_ne_journalPath objectPath n :
  partPathOf objectPath n ≠ journalPathOf objectPath.
Proof.
  unfold partPathOf, journalPathOf. intros E.
  apply StrFacts.app_inv_head in E.
  change ("$multiparts") with ("$" +:+ "multiparts") in E.
  apply StrFacts.app_inv_head in E. by apply itoa_ne_multiparts in E.
Qed.

(** [fmt.Sprintf("%d", n)] is injective. *)
Lemma to_int_nonnil n : Z.to_int n ≠ Decimal.Pos Decimal.Nil ∧ Z.to_int n ≠ Decimal.Neg Decimal.Nil.
Proof.
  destruct n as [|p|p]; simpl; split; try discriminate.
  all: intros [= E]; by apply DecimalPos.Unsigned.to_uint_nonnil in E.
Qed.

Lemma itoa_inj a b : Str.itoa a = Str.itoa b → a = b.
Proof.
  unfold Str.itoa. intros E.
  apply (f_equal NilZero.int_of_string) in E.
  destruct (to_int_nonnil a), (to_int_nonnil b).
  rewrite !NilZero.isi in E by done. injection E as E.
  by apply DecimalZ.to_int_inj.
Qed.

Lemma partPath_inj objectPath a b :
  partPathOf objectPath a = partPathOf objectPath b → a = b.
Proof.
  unfold partPathOf. intros E.
  do 2 apply StrFacts.app_inv_head in E. by apply itoa_inj.
Qed.

Section Inversion.
Context `{Platform}.

Lemma NewMultipartUpload_Ret fs bucket object rnd now w uid w' :
  NewMultipartUpload fs bucket object rnd now w = (Ret uid, w') →
  uid = newUploadID rnd bucket object now
  ∧ IsValidBucket bucket = true
  ∧ IsValidObjectName object = true
  ∧ os.exists_at (bucketPathOf fs bucket) w = true
  ∧ (∃ rest, files w' = <[journalPathOf (objectPathOf fs bucket object) :=
                          json_Encode (mkSession uid now 0 []) +:+ rest]> (files w))
  ∧ ActiveSession w' = <[object := mkSession uid now 0 []]> (ActiveSession w)
  ∧ savedSession w' = Some (ActiveSession w')
  ∧ temps w' = temps w
  ∧ dirs w ⊆ dirs w'.
Proof.
  unfold NewMultipartUpload. unfold_M. simpl.
  intros Hrun.
  repeat (case_match; simpl in *; simplify_eq).
  all: rewrite ?negb_false_iff in *.
  all: repeat split; try done; try set_solver.
  all: eexists; unfold objectPathOf.
  all: try match goal with
           | |- context [files ?w !! ?j] => destruct (files w !! j) eqn:Ej
           end.
  all: try by rewrite ?insert_insert_eq.
Qed.

Lemma CreateObjectPart_Ret fs bucket object uploadID expectedMD5Sum partID size
    data signature now w etag w' :
  CreateObjectPart fs bucket object uploadID expectedMD5Sum partID size data
    signature now w = (Ret etag, w') →
  ∃ journal d,
    0 < partID
    ∧ IsValidBucket bucket = true
    ∧ IsValidObjectName object = true
    ∧ isValidUploadID object uploadID w = true
    ∧ os.exists_at (bucketPathOf fs bucket) w = true
    ∧ files w !! journalPathOf (objectPathOf fs bucket object) = Some journal
    ∧ json_Decode journal = Some d
    ∧ etag = hex.EncodeToString (md5_Sum (Str.take (Z.to_nat size) data))
    ∧ files w' =
        <[journalPathOf (objectPathOf fs bucket object) :=
            journal +:+ json_Encode
              (appendPart d (mkPart partID now etag
                               (Str.len (Str.take (Z.to_nat size) data))))]>
          (<[partPathOf (objectPathOf fs bucket object) partID :=
               Str.take (Z.to_nat size) data]> (files w))
    ∧ ActiveSession w' =
        <[object := appendPart d (mkPart partID now etag
                                    (Str.len (Str.take (Z.to_nat size) data)))]>
          (ActiveSession w)
    ∧ savedSession w' = savedSession w
    ∧ dirs w' = dirs w.
Proof.
  unfold CreateObjectPart, io_CopyN. unfold_M. simpl.
  intros Hrun.
  repeat (case_match; simpl in *; simplify_eq).
  all: repeat (rewrite lookup_insert_eq in *; simpl in * ).
  all: rewrite lookup_insert_ne in * by apply partPath_ne_journalPath.
  all: rewrite ?negb_false_iff in *.
  all: simplify_eq.
  all: match goal with Hd : json_Decode ?s = Some ?m |- _ => exists s, m end.
  all: unfold objectPathOf, appendPart; simpl.
  all: match goal with Hj : files _ !! _ = Some _ |- _ => rewrite ?Hj end.
  all: rewrite ?StrFacts.app_nil_l, ?insert_insert_eq; simpl.
  all: repeat split; try done; try lia.
Qed.

End Inversion.

(** * The session journal grows but its first document never changes *)

Section Journal.
Context `{Platform}.

(** The session of [object] as [NewMultipartUpload] left it on disk: the
    first document of the journal is the initial descriptor, whatever
    follows it. *)
Definition journal_is_initial (fs : Filesystem) (bucket object uid : string)
    (w : World) : Prop :=
  IsValidBucket bucket = true
  ∧ IsValidObjectName object = true
  ∧ os.exists_at (bucketPathOf fs bucket) w = true
  ∧ (∃ t rest, files w !! journalPathOf (objectPathOf fs bucket object)
               = Some (json_Encode (mkSession uid t 0 []) +:+ rest))
  ∧ (∃ s, ActiveSession w !! object = Some s ∧ UploadID s = uid).

Lemma is_Some_insert_mono (m : gmap string string) q c p :
  is_Some (m !! p) → is_Some (<[q := c]> m !! p).
Proof.
  intros Hs. apply lookup_insert_is_Some.
  destruct (decide (q = p)); auto.
Qed.

Lemma exists_at_mono p w w' :
  dirs w ⊆ dirs w' →
  (∀ q, is_Some (files w !! q) → is_Some (files w' !! q)) →
  os.exists_at p w = true → os.exists_at p w' = true.
Proof.
  unfold os.exists_at. intros Hd Hf.
  rewrite !orb_true_iff, !bool_decide_eq_true.
  intros [?|?]; [left; set_solver | right; auto].
Qed.

Lemma journal_is_initial_New fs bucket object rnd now w uid w' :
  NewMultipartUpload fs bucket object rnd now w = (Ret uid, w') →
  journal_is_initial fs bucket object uid w'.
Proof.
  intros Hnew. apply NewMultipartUpload_Ret in Hnew
    as (Hu & Hb & Ho & He & [rest Hf] & Ha & _ & _ & Hd).
  repeat split; try done.
  - apply (exists_at_mono _ w w'); [exact Hd | | exact He].
    intros q Hq. rewrite Hf. by apply is_Some_insert_mono.
  - exists now, rest. by rewrite Hf, lookup_insert_eq.
  - eexists. by rewrite Ha, lookup_insert_eq.
Qed.

(** A successful [CreateObjectPart] reads the initial descriptor, stores a
    descriptor with the one new part in the session map, and leaves the
    first document of the journal as it was. *)
Lemma journal_is_initial_Create fs bucket object uid expectedMD5Sum partID size
    data signature now w etag w' :
  journal_is_initial fs bucket object uid w →
  CreateObjectPart fs bucket object uid expectedMD5Sum partID size data
    signature now w = (Ret etag, w') →
  journal_is_initial fs bucket object uid w'
  ∧ (∃ s, ActiveSession w' !! object = Some s
          ∧ Parts s = [mkPart partID now etag (Str.len (Str.take (Z.to_nat size) data))])
  ∧ files w' !! partPathOf (objectPathOf fs bucket object) partID
    = Some (Str.take (Z.to_nat size) data)
  ∧ (∀ p, p ≠ journalPathOf (objectPathOf fs bucket object) →
          p ≠ partPathOf (objectPathOf fs bucket object) partID →
          files w' !! p = files w !! p)
  ∧ savedSession w' = savedSession w.
Proof.
  intros (Hb & Ho & He & (t & rest & Hj) & (s0 & Hs0 & Hu0)) Hrun.
  apply CreateObjectPart_Ret in Hrun
    as (journal & d & Hid & _ & _ & Hv & _ & Hj' & Hd & Het & Hf & Ha & Hsv & Hdirs).
  rewrite Hj in Hj'. injection Hj' as <-.
  rewrite json_Decode_Encode in Hd. injection Hd as <-.
  repeat split; try done.
  - apply (exists_at_mono _ w w'); [by rewrite Hdirs | | exact He].
    intros q Hq. rewrite Hf. by do 2 apply is_Some_insert_mono.
  - exists t. eexists. rewrite Hf, lookup_insert_eq. by rewrite StrFacts.app_assoc.
  - eexists. rewrite Ha, lookup_insert_eq. done.
  - eexists. rewrite Ha, lookup_insert_eq. split; [done|]. reflexivity.
  - rewrite Hf, lookup_insert_ne, lookup_insert_eq; [done|].
    intros E. symmetry in E. by apply partPath_ne_journalPath in E.
  - intros p Hp1 Hp2. by rewrite Hf, !lookup_insert_ne.
Qed.

(** [uploaded fs bucket object uid w n w']: from [w], [n] successful
    [CreateObjectPart] calls with the part numbers 1, ..., [n] in this
    order lead to [w']. *)
Inductive uploaded (fs : Filesystem) (bucket object uid : string)
    : World → nat → World → Prop :=
  | uploaded_none w : uploaded fs bucket object uid w 0 w
  | uploaded_next w n w1 expectedMD5Sum size data signature now etag w2 :
      uploaded fs bucket object uid w n w1 →
      CreateObjectPart fs bucket object uid expectedMD5Sum (Z.of_nat (S n)) size
        data signature now w1 = (Ret etag, w2) →
      uploaded fs bucket object uid w (S n) w2.

Lemma journal_is_initial_uploaded fs bucket object uid w n w' :
  uploaded fs bucket object uid w n w' →
  journal_is_initial fs bucket object uid w →
  journal_is_initial fs bucket object uid w'.
Proof.
  induction 1 as [|w n w1 ? ? ? ? ? ? w2 _ IH Hc]; [done|].
  intros Hw. by eapply journal_is_initial_Create in Hc as [? _]; [|apply IH].
Qed.

(** With the initial descriptor in front, a listing from the start has no
    part to show. *)
Lemma ListObjectParts_initial fs bucket object uid resources w :
  journal_is_initial fs bucket object uid w →
  rUploadID resources = uid →
  PartNumberMarker resources = 0 →
  ∃ listed,
    ListObjectParts fs bucket object resources w = (Ret listed, w)
    ∧ Part listed = [].
Proof.
  intros (Hb & Ho & He & (t & rest & Hj) & (s0 & Hs0 & Hu0)) Hu Hm.
  unfold ListObjectParts. unfold_M. simpl.
  rewrite Hb, Ho. simpl.
  unfold isValidUploadID. rewrite Hs0, Hu, Hu0, String.eqb_refl. simpl.
  rewrite He. simpl.
  unfold objectPathOf in Hj. rewrite Hj, json_Decode_Encode, Hm. simpl.
  eexists; split; reflexivity.
Qed.

(** C1, what the code does: after [NewMultipartUpload] and [n] successful
    [CreateObjectPart] calls with the part numbers 1, ..., [n],
    [ListObjectParts] with [PartNumberMarker = 0] succeeds and returns no
    part at all, whatever [n] is: each upload appends a document to the
    journal, and the listing decodes the first document, which is the one
    [NewMultipartUpload] wrote. *)
Theorem C1_listing_after_uploads_is_empty fs bucket object rnd now w0 uid w1 n w2
    resources :
  NewMultipartUpload fs bucket object rnd now w0 = (Ret uid, w1) →
  uploaded fs bucket object uid w1 n w2 →
  rUploadID resources = uid →
  PartNumberMarker resources = 0 →
  ∃ listed,
    ListObjectParts fs bucket object resources w2 = (Ret listed, w2)
    ∧ Part listed = [].
Proof.
  intros Hnew Hup Hu Hm.
  apply (ListObjectParts_initial _ _ _ uid); [|done..].
  eapply journal_is_initial_uploaded; [exact Hup|].
  by eapply journal_is_initial_New.
Qed.

(** C2, what the code does: [CreateObjectPart] never calls
    [SaveMultipartsSession].  After a new session and one successful part
    upload the persisted map is still the map as [NewMultipartUpload] saved
    it, and differs from the session map in memory. *)
Theorem C2_part_upload_is_not_persisted fs bucket object rnd now w0 uid w1
    expectedMD5Sum partID size data signature now' etag w2 :
  NewMultipartUpload fs bucket object rnd now w0 = (Ret uid, w1) →
  CreateObjectPart fs bucket object uid expectedMD5Sum partID size data
    signature now' w1 = (Ret etag, w2) →
  savedSession w1 = Some (ActiveSession w1)
  ∧ savedSession w2 = Some (ActiveSession w1)
  ∧ savedSession w2 ≠ Some (ActiveSession w2).
Proof.
  intros Hnew Hc.
  pose proof (journal_is_initial_New _ _ _ _ _ _ _ _ Hnew) as Hinit.
  apply NewMultipartUpload_Ret in Hnew as (_ & _ & _ & _ & _ & Ha1 & Hs1 & _).
  eapply journal_is_initial_Create in Hc as (_ & (s & Hs & Hp) & _ & _ & Hsv); [|done].
  repeat split; [done | congruence |].
  rewrite Hsv, Hs1. intros [= E].
  rewrite <- E, Ha1, lookup_insert_eq in Hs. by injection Hs as <-.
Qed.

(** C7, what the code does: after two successful part uploads with
    different part numbers the session in memory records the second part
    only, so [AbortMultipartUpload] succeeds and the file of the first
    part is still on disk. *)
Theorem C7_abort_leaves_earlier_part fs bucket object rnd now w0 uid w1
    md5a ida sizea dataa siga nowa etaga w2
    md5b idb sizeb datab sigb nowb etagb w3 :
  NewMultipartUpload fs bucket object rnd now w0 = (Ret uid, w1) →
  CreateObjectPart fs bucket object uid md5a ida sizea dataa siga nowa w1
    = (Ret etaga, w2) →
  CreateObjectPart fs bucket object uid md5b idb sizeb datab sigb nowb w2
    = (Ret etagb, w3) →
  ida ≠ idb →
  ∃ w4,
    AbortMultipartUpload fs bucket object uid w3 = (Ret tt, w4)
    ∧ files w4 !! partPathOf (objectPathOf fs bucket object) ida
      = Some (Str.take (Z.to_nat sizea) dataa).
Proof.
  intros Hnew Ha Hb Hne.
  pose proof (journal_is_initial_New _ _ _ _ _ _ _ _ Hnew) as H1.
  eapply journal_is_initial_Create in Ha as (H2 & _ & Hfa & _ & _); [|done].
  eapply journal_is_initial_Create in Hb as (H3 & (s & Hs & Hp) & _ & Hfb & _); [|done].
  destruct H3 as (Hvb & Hvo & He & _ & (s' & Hs' & Hu')).
  rewrite Hs in Hs'. injection Hs' as <-.
  unfold AbortMultipartUpload. unfold_M. simpl.
  rewrite Hvb, Hvo. simpl.
  unfold isValidUploadID. rewrite Hs, Hu', String.eqb_refl. simpl.
  rewrite He. simpl. rewrite Hp. simpl.
  eexists; split; [reflexivity|]. simpl.
  fold (objectPathOf fs bucket object).
  rewrite lookup_delete_ne by (apply not_eq_sym, partPath_ne_journalPath).
  rewrite lookup_delete_ne by (intros E; by apply partPath_inj in E).
  rewrite Hfb; [done | apply partPath_ne_journalPath |].
  intros E. by apply partPath_inj in E.
Qed.
End Journal.

(** Listing parameters with default markers and room for a thousand
    parts. *)
Definition list_all : ObjectResourcesMetadata :=
  mkObjectResources "" "" Scenario.uid 0 0 1000 false [].

Lemma scenario_started :
  NewMultipartUpload Scenario.fs "b" "o" 7 1 Scenario.empty_disk
  = (Ret Scenario.uid, Scenario.started).
Proof. vm_compute. reflexivity. Qed.

Lemma scenario_one_part :
  CreateObjectPart Scenario.fs "b" "o" Scenario.uid "" 1 5 "hello" None 2
    Scenario.started
  = (Ret (Scenario.etag "hello"), Scenario.one_part).
Proof. vm_compute. reflexivity. Qed.

Lemma scenario_two_parts :
  CreateObjectPart Scenario.fs "b" "o" Scenario.uid "" 2 5 "world" None 3
    Scenario.one_part
  = (Ret (Scenario.etag "world"), Scenario.two_parts).
Proof. vm_compute. reflexivity. Qed.

Lemma C1_listing_after_uploads_is_empty_witness :
  ∃ listed,
    ListObjectParts Scenario.fs "b" "o" list_all Scenario.two_parts
    = (Ret listed, Scenario.two_parts)
    ∧ Part listed = [].
Proof.
  apply (C1_listing_after_uploads_is_empty (H := toy_platform)
           Scenario.fs "b" "o" 7 1 Scenario.empty_disk Scenario.uid
           Scenario.started 2 Scenario.two_parts list_all).
  - vm_compute. reflexivity.
  - apply (uploaded_next _ _ _ _ _ 1 Scenario.one_part "" 5 "world" None 3
             (Scenario.etag "world")).
    + apply (uploaded_next _ _ _ _ _ 0 Scenario.started "" 5 "hello" None 2
               (Scenario.etag "hello")).
      * apply uploaded_none.
      * vm_compute. reflexivity.
    + vm_compute. reflexivity.
  - reflexivity.
  - reflexivity.
Defined.

Lemma C2_part_upload_is_not_persisted_witness :
  savedSession Scenario.started = Some (ActiveSession Scenario.started)
  ∧ savedSession Scenario.one_part = Some (ActiveSession Scenario.started)
  ∧ savedSession Scenario.one_part ≠ Some (ActiveSession Scenario.one_part).
Proof.
  apply (C2_part_upload_is_not_persisted (H := toy_platform)
           Scenario.fs "b" "o" 7 1 Scenario.empty_disk Scenario.uid
           Scenario.started "" 1 5 "hello" None 2 (Scenario.etag "hello")
           Scenario.one_part).
  - vm_compute. reflexivity.
  - vm_compute. reflexivity.
Defined.

Lemma C7_abort_leaves_earlier_part_witness :
  ∃ w4,
    AbortMultipartUpload Scenario.fs "b" "o" Scenario.uid Scenario.two_parts
    = (Ret tt, w4)
    ∧ files w4 !! partPathOf (objectPathOf Scenario.fs "b" "o") 1
      = Some (Str.take (Z.to_nat 5) "hello").
Proof.
  apply (C7_abort_leaves_earlier_part (H := toy_platform)
           Scenario.fs "b" "o" 7 1 Scenario.empty_disk Scenario.uid
           Scenario.started
           "" 1 5 "hello" None 2 (Scenario.etag "hello") Scenario.one_part
           "" 2 5 "world" None 3 (Scenario.etag "world") Scenario.two_parts).
  - vm_compute. reflexivity.
  - vm_compute. reflexivity.
  - vm_compute. reflexivity.
  - lia.
Defined.

(** * Committing an upload *)

(** The bytes of several files one after the other. *)
Definition joined (contents : list string) : string :=
  foldr String.append "" contents.

Section Commit.
Context `{Platform}.

(** [concatParts] only writes to the temp file of the object.  When it
    returns the nil error, every part of the manifest was on disk and the
    temp file and the hasher received the parts' bytes in manifest order. *)
Lemma concatParts_spec parts objectPath target hashed w r w1 :
  concatParts parts objectPath target hashed w = (r, w1) →
  files w1 = files w
  ∧ dirs w1 = dirs w
  ∧ ActiveSession w1 = ActiveSession w
  ∧ savedSession w1 = savedSession w
  ∧ events w1 = events w
  ∧ (∀ q, q ≠ target → temps w1 !! q = temps w !! q)
  ∧ ∃ err hashed',
      r = Ret (err, hashed')
      ∧ (err = None →
         ∃ contents,
           Forall2 (λ p c, files w !! partPathOf objectPath (cPartNumber p) = Some c)
                   parts contents
           ∧ hashed' = hashed +:+ joined contents
           ∧ default "" (temps w1 !! target)
             = default "" (temps w !! target) +:+ joined contents).
Proof.
  revert hashed w r w1.
  induction parts as [|part rest IH]; intros hashed w r w1; simpl.
  - unfold_M. intros [= <- <-]. repeat split; try done.
    eexists _, _; split; [done|]. intros _. exists [].
    simpl. by rewrite !StrFacts.app_nil_r.
  - unfold_M. simpl.
    destruct (files w !! partPathOf objectPath (cPartNumber part)) as [obj|] eqn:Hobj;
      simpl; [|intros [= <- <-]; repeat split; try done; by eexists _, _].
    destruct (hex.DecodeString _) as [recv|]; simpl;
      [|intros [= <- <-]; repeat split; try done; by eexists _, _].
    destruct (negb _); simpl;
      [intros [= <- <-]; repeat split; try done; by eexists _, _|].
    intros Hrun. apply IH in Hrun
      as (Hf & Hd & Ha & Hs & Hev & Ht & err & hashed' & -> & Hok).
    simpl in *. repeat split; try done.
    { intros q Hq. rewrite Ht by done. by rewrite lookup_insert_ne. }
    eexists _, _; split; [done|]. intros Herr.
    destruct (Hok Herr) as (contents & Hall & -> & Htemp).
    exists (obj :: contents). split; [|split].
    + by constructor.
    + simpl. by rewrite StrFacts.app_assoc.
    + rewrite Htemp, lookup_insert_eq. simpl. by rewrite StrFacts.app_assoc.
Qed.

(** [removeParts] only deletes files.  When it returns the nil error it
    has removed the file of every part of the manifest, in manifest
    order. *)
Lemma removeParts_spec parts objectPath w r w1 :
  removeParts parts objectPath w = (r, w1) →
  dirs w1 = dirs w
  ∧ temps w1 = temps w
  ∧ ActiveSession w1 = ActiveSession w
  ∧ savedSession w1 = savedSession w
  ∧ (∀ q, files w1 !! q = None ∨ files w1 !! q = files w !! q)
  ∧ ∃ err,
      r = Ret err
      ∧ (∀ e, err = Some e → ∃ q, e = PathError "remove" q)
      ∧ (err = None →
         (∀ p, p ∈ parts → files w1 !! partPathOf objectPath (cPartNumber p) = None)
         ∧ events w1
           = events w ++ map (λ p, EvRemove (partPathOf objectPath (cPartNumber p))) parts).
Proof.
  revert w r w1.
  induction parts as [|part rest IH]; intros w r w1; simpl.
  - unfold_M. intros [= <- <-]. repeat split; auto.
    eexists; split; [done|]. split; [done|]. intros _. split.
    + intros p Hp. by apply elem_of_nil in Hp.
    + by rewrite app_nil_r.
  - unfold_M. unfold os.Remove at 1.
    destruct (files w !! partPathOf objectPath (cPartNumber part)) as [obj|] eqn:Hobj; simpl.
    + intros Hrun. apply IH in Hrun as (Hd & Ht & Ha & Hs & Hf & err & -> & Herr & Hok).
      simpl in *. repeat split; try done.
      { intros q. destruct (Hf q) as [?|E]; [by left|].
        rewrite E. destruct (decide (partPathOf objectPath (cPartNumber part) = q)) as [<-|].
        - left. apply lookup_delete_eq.
        - right. by apply lookup_delete_ne. }
      eexists; split; [done|]. split; [done|]. intros Hnone.
      destruct (Hok Hnone) as [Hgone Hev]. split.
      * intros p [->|Hp]%elem_of_cons; [|by apply Hgone].
        destruct (Hf (partPathOf objectPath (cPartNumber part))) as [?|E]; [done|].
        by rewrite E, lookup_delete_eq.
      * rewrite Hev. by rewrite <- app_assoc.
    + intros [= <- <-]. repeat split; auto.
      eexists; split; [done|]. split; [|done].
      intros e [= <-]. by eexists.
Qed.

(** The removal loop of a commit touches the part files of the manifest
    and nothing else. *)
Lemma removeParts_frame parts objectPath w r w1 :
  removeParts parts objectPath w = (r, w1) →
  ∀ q, (∀ p, p ∈ parts → q ≠ partPathOf objectPath (cPartNumber p)) →
       files w1 !! q = files w !! q.
Proof.
  revert w. induction parts as [|part rest IH]; intros w; simpl.
  - unfold_M. by intros [= <- <-].
  - unfold_M. unfold os.Remove at 1.
    destruct (files w !! partPathOf objectPath (cPartNumber part)) as [obj|] eqn:Hobj;
      simpl; [|by intros [= <- <-]].
    intros Hrun q Hq. rewrite (IH _ Hrun) by (intros p Hp; apply Hq; by right).
    simpl. apply lookup_delete_ne, not_eq_sym, Hq. by left.
Qed.

Lemma os_Remove_None p w w' :
  os.Remove p w = (Ret None, w') →
  is_Some (files w !! p)
  ∧ w' = add_event (EvRemove p) (set_files (delete p) w).
Proof.
  unfold os.Remove. destruct (files w !! p); intros [= <-]; eauto.
Qed.

(** The steps of a commit that come after the temp file is opened and
    before it is published. *)
Definition cleanup (object objectPath : string) (parts : list CompletePart)
    : list Event :=
  EvDeleteSession object
    :: map (λ p, EvRemove (partPathOf objectPath (cPartNumber p))) parts
    ++ [EvRemove (journalPathOf objectPath); EvSave].

(** The verifier of a commit answers the manifest with an error of its
    own. *)
Definition verifier_fails (signature : option Signature) (data : string) : Prop :=
  ∃ sig perr,
    signature = Some sig
    ∧ DoesSignatureMatch sig (hex.EncodeToString (sha256_Sum data)) = SigErr perr.

(** A commit returns no error in two ways: it gave up at an error of the
    verifier, having created and purged its temp file and nothing more, or
    it went through to the end. *)
Lemma CompleteMultipartUpload_Ret fs bucket object uploadID data signature now
    w meta w' :
  CompleteMultipartUpload fs bucket object uploadID data signature now w
    = (Ret meta, w') →
  (verifier_fails signature data
   ∧ meta = emptyObject
   ∧ files w' = files w
   ∧ ActiveSession w' = ActiveSession w
   ∧ savedSession w' = savedSession w
   ∧ events w'
     = events w ++ [EvFileCreate (objectPathOf fs bucket object);
                    EvPurge (objectPathOf fs bucket object)])
  ∨ ∃ parts contents,
      xml_Unmarshal data = Some parts
      ∧ Forall2 (λ p c, files w !! partPathOf (objectPathOf fs bucket object)
                                     (cPartNumber p) = Some c)
                (cPart parts) contents
      ∧ meta = mkObject bucket object "application/octet-stream" now
                 (hex.EncodeToString (md5_Sum (joined contents)))
                 (Str.len (joined contents))
      ∧ files w' !! objectPathOf fs bucket object = Some (joined contents)
      ∧ (∀ p, p ∈ cPart parts →
              files w' !! partPathOf (objectPathOf fs bucket object) (cPartNumber p)
              = None)
      ∧ files w' !! journalPathOf (objectPathOf fs bucket object) = None
      ∧ ActiveSession w' = delete object (ActiveSession w)
      ∧ savedSession w' = Some (ActiveSession w')
      ∧ events w'
        = events w ++ EvFileCreate (objectPathOf fs bucket object)
                   :: cleanup object (objectPathOf fs bucket object) (cPart parts)
                   ++ [EvPublish (objectPathOf fs bucket object)]
      ∧ (∀ q, q ≠ objectPathOf fs bucket object →
              q ≠ journalPathOf (objectPathOf fs bucket object) →
              (∀ p, p ∈ cPart parts →
                    q ≠ partPathOf (objectPathOf fs bucket object) (cPartNumber p)) →
              files w' !! q = files w !! q).
Proof.
  unfold CompleteMultipartUpload. unfold_M. simpl.
  intros Hrun.
  repeat (case_match; simpl in *; simplify_eq).
  all: fold (objectPathOf fs bucket object) in *.
  all: try match goal with
           | Hs : DoesSignatureMatch _ _ = SigErr _ |- _ =>
               left; split; [by eexists _, _|]; simpl;
               repeat split; by rewrite <- ?app_assoc
           end.
  all: right.
  all: match goal with
       | Hc : concatParts _ _ _ _ _ = _ |- _ =>
           apply concatParts_spec in Hc
             as (Hcf & _ & Hca & _ & Hcev & _ & err & hashed' & Hr & Hok)
       end.
  all: match goal with
       | Hc : removeParts _ _ _ = _ |- _ =>
           pose proof (removeParts_frame _ _ _ _ _ Hc) as Hframe;
           apply removeParts_spec in Hc
             as (_ & Hrt & Hra & _ & Hrf & rerr & Hrr & _ & Hrok)
       end.
  all: match goal with
       | Hc : os.Remove _ _ = _ |- _ => apply os_Remove_None in Hc as [_ ->]
       end.
  all: simplify_eq; simpl in *.
  all: destruct (Hok eq_refl) as (contents & Hall & -> & Htemp).
  all: destruct (Hrok eq_refl) as [Hgone Hev].
  all: rewrite lookup_insert_eq in *; simpl in *.
  all: rewrite StrFacts.app_nil_l in *.
  all: rewrite Hrt in *; rewrite Htemp in *; simplify_eq.
  all: eexists _, contents.
  all: repeat split; try done.
  all: try (rewrite lookup_insert_ne by (apply not_eq_sym, journalPath_ne);
            apply lookup_delete_eq).
  all: try (intros p Hp; rewrite lookup_insert_ne by (apply not_eq_sym, partPath_ne);
            destruct (decide (journalPathOf (objectPathOf fs bucket object)
                              = partPathOf (objectPathOf fs bucket object) (cPartNumber p)))
              as [<-|]; [apply lookup_delete_eq | rewrite lookup_delete_ne by done; by apply Hgone]).
  all: try congruence.
  all: try (intros q Hq Hj Hp; rewrite lookup_insert_ne, lookup_delete_ne by done;
            rewrite Hframe by done; simpl; by rewrite Hcf).
  all: unfold cleanup; rewrite Hev, Hcev; simpl.
  all: rewrite <- !app_assoc; simpl; by rewrite <- ?app_assoc.
Qed.



(** The part numbers of a manifest never go down from one entry to the
    next; equal neighbours are allowed. *)
Definition nondecreasing (parts : list CompletePart) : Prop :=
  ∀ i a b, parts !! i = Some a → parts !! S i = Some b →
           cPartNumber a ≤ cPartNumber b.

Lemma IsSorted_nondecreasing parts :
  sort.IsSorted completedParts_Less parts = true ↔ nondecreasing parts.
Proof.
  unfold nondecreasing. induction parts as [|a [|b rest] IH].
  - split; [intros _ i a b Ha; by rewrite lookup_nil in Ha | done].
  - split; [intros _ [|i] x y Hx Hy; by simplify_eq/= | done].
  - change (sort.IsSorted completedParts_Less (a :: b :: rest))
      with (negb (completedParts_Less b a)
            && sort.IsSorted completedParts_Less (b :: rest)).
    rewrite andb_true_iff, IH, negb_true_iff. unfold completedParts_Less.
    rewrite Z.ltb_ge. split.
    + intros [Hab Hrest] [|i] x y Hx Hy; simplify_eq/=; [done|].
      by eapply Hrest.
    + intros Hall. split; [by apply (Hall 0%nat)|].
      intros i x y Hx Hy. by apply (Hall (S i)).
Qed.

(** The signature check of a commit lets the manifest through. *)
Definition signature_passes (signature : option Signature) (data : string) : Prop :=
  match signature with
  | None => True
  | Some sig =>
      DoesSignatureMatch sig (hex.EncodeToString (sha256_Sum data)) = SigOk true
  end.

Lemma signature_passes_not_fails signature data :
  signature_passes signature data → ¬ verifier_fails signature data.
Proof.
  intros Hsig (sig & perr & -> & Hs). simpl in Hsig. congruence.
Qed.

Lemma removeParts_not_InvalidPartOrder e : (∃ q, e = PathError "remove" q) → e ≠ InvalidPartOrder.
Proof. by intros [q ->]. Qed.

(** C5, what the code does: a [CompleteMultipartUpload] call that passes
    validation and the signature check and whose manifest parses fails
    with [InvalidPartOrder] exactly when some part number is smaller than
    the one before it.  [sort.IsSorted] asks [Less(i, i-1)], which is
    false for equal numbers, so a manifest that repeats a part number is
    not rejected by the order check. *)
Theorem C5_order_check_accepts_equal_part_numbers fs bucket object uploadID data
    signature now w parts :
  IsValidBucket bucket = true →
  IsValidObjectName object = true →
  isValidUploadID object uploadID w = true →
  os.exists_at (bucketPathOf fs bucket) w = true →
  signature_passes signature data →
  xml_Unmarshal data = Some parts →
  (CompleteMultipartUpload fs bucket object uploadID data signature now w).1
    = Fail (probe_NewError InvalidPartOrder)
  ↔ ¬ nondecreasing (cPart parts).
Proof.
  intros Hb Ho Hu He Hsig Hxml.
  rewrite <- IsSorted_nondecreasing.
  unfold CompleteMultipartUpload. unfold_M. simpl.
  rewrite Hb, Ho, Hu. simpl. rewrite He. simpl.
  assert (match signature with
          | Some sig =>
              match DoesSignatureMatch sig (hex.EncodeToString (sha256_Sum data)) with
              | SigOk true => None
              | SigOk false => Some (Some (probe_NewError SignatureDoesNotMatch))
              | SigErr _ => Some None
              end
          | None => None
          end = None) as ->.
  { destruct signature as [sig|]; [|done]. simpl in Hsig. by rewrite Hsig. }
  rewrite Hxml.
  destruct (sort.IsSorted completedParts_Less (cPart parts)) eqn:Hsorted; simpl.
  - split; [|done]. intros Hfail. exfalso.
    repeat (case_match; simpl in *; simplify_eq).
    all: try match goal with
             | Hc : removeParts _ _ _ = _ |- _ =>
                 apply removeParts_spec in Hc
                   as (_ & _ & _ & _ & _ & rerr & Hrr & Herr & _);
                 simplify_eq; by destruct (Herr _ eq_refl)
             end.
    all: try match goal with
             | Hc : concatParts _ _ _ _ _ = _ |- _ =>
                 apply concatParts_spec in Hc
                   as (_ & _ & _ & _ & _ & _ & cerr & hashed' & Hcr & _);
                 discriminate
             end.
    all: unfold os.Remove in *; repeat (case_match; simplify_eq).
  - split; [intros _; discriminate | done].
Qed.
End Commit.

(** Manifests for the session of ["o"]: both parts, the first part only,
    and the first part twice. *)
Definition manifest_both : string :=
  Toy.manifest [mkCompletePart 1 (Scenario.etag "hello");
                mkCompletePart 2 (Scenario.etag "world")].
Definition manifest_first : string :=
  Toy.manifest [mkCompletePart 1 (Scenario.etag "hello")].
Definition manifest_twice : string :=
  Toy.manifest [mkCompletePart 1 (Scenario.etag "hello");
                mkCompletePart 1 (Scenario.etag "hello")].

Definition committed : World :=
  Scenario.after
    (CompleteMultipartUpload Scenario.fs "b" "o" Scenario.uid manifest_both None 4)
    Scenario.two_parts.

Definition committed_meta : ObjectMetadata :=
  mkObject "b" "o" "application/octet-stream" 4 (Scenario.etag "helloworld") 10.

Lemma scenario_committed :
  CompleteMultipartUpload Scenario.fs "b" "o" Scenario.uid manifest_both None 4
    Scenario.two_parts
  = (Ret committed_meta, committed).
Proof. vm_compute. reflexivity. Qed.




(** The commit of both parts under a verifier that fails: the answer of
    the call and the world it leaves. *)
Definition unverified_commit : outcome ObjectMetadata * World :=
  CompleteMultipartUpload Scenario.fs "b" "o" Scenario.uid manifest_both
    (Some broken_verifier) 4 Scenario.two_parts.


Lemma C5_order_check_accepts_equal_part_numbers_witness :
  (CompleteMultipartUpload Scenario.fs "b" "o" Scenario.uid manifest_twice None 4
     Scenario.one_part).1
  = Fail (probe_NewError InvalidPartOrder)
  ↔ ¬ nondecreasing [mkCompletePart 1 (Scenario.etag "hello");
                     mkCompletePart 1 (Scenario.etag "hello")].
Proof.
  apply (C5_order_check_accepts_equal_part_numbers (H := toy_platform)
           Scenario.fs "b" "o" Scenario.uid manifest_twice None 4
           Scenario.one_part
           (mkManifest [mkCompletePart 1 (Scenario.etag "hello");
                        mkCompletePart 1 (Scenario.etag "hello")])).
  - vm_compute. reflexivity.
  - vm_compute. reflexivity.
  - vm_compute. reflexivity.
  - vm_compute. reflexivity.
  - exact I.
  - vm_compute. reflexivity.
Defined.

(** The same manifest on the concrete disk: the order check lets it
    through, part 1 is read twice, the session is forgotten, the part file
    is removed, and the call then fails at the second removal, with no
    object published. *)
Lemma commit_with_repeated_part :
  Scenario.answer
    (CompleteMultipartUpload Scenario.fs "b" "o" Scenario.uid manifest_twice None 4)
    Scenario.one_part
  = Fail (probe_NewError
            (PathError "remove" (partPathOf (objectPathOf Scenario.fs "b" "o") 1)))
  ∧ ActiveSession
      (Scenario.after
         (CompleteMultipartUpload Scenario.fs "b" "o" Scenario.uid manifest_twice None 4)
         Scenario.one_part) !! "o" = None
  ∧ files
      (Scenario.after
         (CompleteMultipartUpload Scenario.fs "b" "o" Scenario.uid manifest_twice None 4)
         Scenario.one_part) !! partPathOf (objectPathOf Scenario.fs "b" "o") 1 = None
  ∧ files
      (Scenario.after
         (CompleteMultipartUpload Scenario.fs "b" "o" Scenario.uid manifest_twice None 4)
         Scenario.one_part) !! objectPathOf Scenario.fs "b" "o" = None.
Proof. repeat split; vm_compute; reflexivity. Qed.

(** * Descriptors count their parts *)

Definition counts_its_parts (s : MultipartSession) : Prop :=
  TotalParts s = Z.of_nat (length (Parts s)).

Definition is_journal_path (p : string) : Prop := ∃ q, p = journalPathOf q.

Lemma last_journalPath q : last (Str.to_list (journalPathOf q)) = Some "s"%char.
Proof.
  unfold journalPathOf. rewrite StrFacts.to_list_app, last_app. reflexivity.
Qed.

Lemma last_uint d c :
  last (Str.to_list (NilEmpty.string_of_uint d)) = Some c → c ≠ "s"%char.
Proof.
  induction d as [|d IH|d IH|d IH|d IH|d IH|d IH|d IH|d IH|d IH|d IH]; simpl;
    [done|..].
  all: rewrite last_cons.
  all: destruct (last (Str.to_list (NilEmpty.string_of_uint d))) as [y|];
    [intros [= <-]; by apply IH | by intros [= <-]].
Qed.

Lemma last_itoa n c : last (Str.to_list (Str.itoa n)) = Some c → c ≠ "s"%char.
Proof.
  unfold Str.itoa, NilZero.string_of_int, NilZero.string_of_uint.
  destruct (Z.to_int n) as [d|d].
  - destruct d; try apply last_uint. by intros [= <-].
  - simpl. rewrite last_cons.
    destruct d; try (destruct (last _) as [y|] eqn:E;
      [intros [= <-]; by eapply last_uint | by intros [= <-]]).
    by intros [= <-].
Qed.

Lemma partPath_not_journal objectPath n : ¬ is_journal_path (partPathOf objectPath n).
Proof.
  intros [q E]. apply (f_equal (λ s, last (Str.to_list s))) in E.
  rewrite last_journalPath in E. unfold partPathOf in E.
  rewrite !StrFacts.to_list_app, last_app, last_app in E. simpl in E.
  destruct (last (Str.to_list (Str.itoa n))) as [c|] eqn:Hc; [|done].
  injection E as ->. by eapply last_itoa.
Qed.

(** A suffix without the separator lies within the last path element. *)
Lemma suffix_after_separator (A O Q S : list ascii) (x : ascii) :
  A ++ x :: O = Q ++ S → x ∉ S → ∃ P, O = P ++ S.
Proof.
  revert Q. induction A as [|a A IH]; intros [|q Q] E Hx; simpl in *.
  - subst S. exfalso. apply Hx. by left.
  - injection E as _ ->. by exists Q.
  - subst S. exfalso. apply Hx. right. apply elem_of_app. right. by left.
  - injection E as _ E. by eapply IH.
Qed.

Lemma objectPath_journal fs bucket object :
  is_journal_path (objectPathOf fs bucket object) → is_journal_path object.
Proof.
  intros [q E]. unfold objectPathOf, filepath.Join, journalPathOf in E.
  apply (f_equal Str.to_list) in E.
  rewrite !StrFacts.to_list_app in E. simpl in E.
  apply suffix_after_separator in E as [P E].
  - exists (Str.of_list P). apply StrFacts.to_list_inj.
    unfold journalPathOf.
    by rewrite E, StrFacts.to_list_app, StrFacts.to_list_of_list.
  - intros Hin. repeat (apply elem_of_cons in Hin as [Hin|Hin]; [done|]).
    by apply elem_of_nil in Hin.
Qed.

Section Descriptors.
Context `{Platform}.
Variable fs : Filesystem.

(** The name validator rejects object names that end in [$multiparts], the
    names of session journals. *)
Hypothesis valid_object_is_not_a_journal :
  ∀ object, IsValidObjectName object = true → ¬ is_journal_path object.

(** The first document of a journal is a descriptor that counts its
    parts. *)
Definition good_journal (content : string) : Prop :=
  ∃ d rest, content = json_Encode d +:+ rest ∧ counts_its_parts d.

Definition sessions_ok (m : gmap string MultipartSession) : Prop :=
  ∀ object s, m !! object = Some s → counts_its_parts s.

Definition journals_ok (f : gmap string string) : Prop :=
  ∀ p content, is_journal_path p → f !! p = Some content → good_journal content.

Definition descriptors_ok (w : World) : Prop :=
  sessions_ok (ActiveSession w) ∧ journals_ok (files w).

Lemma good_journal_app content more : good_journal content → good_journal (content +:+ more).
Proof.
  intros (d & rest & -> & Hd). exists d, (rest +:+ more).
  by rewrite StrFacts.app_assoc.
Qed.

Lemma good_journal_Decode content d :
  good_journal content → json_Decode content = Some d → counts_its_parts d.
Proof.
  intros (d' & rest & -> & Hd). rewrite json_Decode_Encode. by intros [= <-].
Qed.

Lemma counts_appendPart d part : counts_its_parts d → counts_its_parts (appendPart d part).
Proof.
  unfold counts_its_parts, appendPart, sort.Sort. simpl. intros ->.
  rewrite merge_sort_Permutation, length_app. simpl. lia.
Qed.

(** How the invariant fares under the effects a call is made of. *)
Lemma sessions_ok_insert object s m :
  counts_its_parts s → sessions_ok m → sessions_ok (<[object := s]> m).
Proof. intros Hs Hm o s' [[_ <-]|[_ ?]]%lookup_insert_Some; eauto. Qed.

Lemma sessions_ok_delete object m : sessions_ok m → sessions_ok (delete object m).
Proof. intros Hm o s' [_ ?]%lookup_delete_Some; eauto. Qed.

Lemma journals_ok_delete p f : journals_ok f → journals_ok (delete p f).
Proof. intros Hf q c Hq [_ ?]%lookup_delete_Some; eauto. Qed.

Lemma journals_ok_insert p content f :
  (is_journal_path p → good_journal content) →
  journals_ok f → journals_ok (<[p := content]> f).
Proof. intros Hp Hf q c Hq [[<- <-]|[_ ?]]%lookup_insert_Some; eauto. Qed.

Lemma journals_ok_fewer f f' :
  (∀ q, f' !! q = None ∨ f' !! q = f !! q) → journals_ok f → journals_ok f'.
Proof.
  intros Hless Hf q c Hq Hc. destruct (Hless q) as [E|E]; rewrite E in Hc; [done|eauto].
Qed.

Lemma good_journal_initial uid now rest :
  good_journal (json_Encode (mkSession uid now 0 []) +:+ rest).
Proof. by eexists _, _. Qed.

Lemma ok_NewMultipartUpload bucket object rnd now w :
  descriptors_ok w →
  descriptors_ok (NewMultipartUpload fs bucket object rnd now w).2.
Proof.
  intros [Ha Hf]. unfold NewMultipartUpload. unfold_M. simpl.
  repeat (case_match; simpl in *; simplify_eq); try done.
  all: split; simpl.
  all: try (apply sessions_ok_insert; [done|done]).
  all: case_match; rewrite ?insert_insert_eq.
  all: by apply journals_ok_insert; [intros _; apply good_journal_initial|].
Qed.

Lemma ok_CreateObjectPart bucket object uploadID expectedMD5Sum partID size
    data signature now w :
  descriptors_ok w →
  descriptors_ok
    (CreateObjectPart fs bucket object uploadID expectedMD5Sum partID size data
       signature now w).2.
Proof.
  intros [Ha Hf]. unfold CreateObjectPart, io_CopyN. unfold_M. simpl.
  repeat (case_match; simpl in *; simplify_eq); try done.
  all: repeat (rewrite lookup_insert_eq in *; simpl in * ).
  all: rewrite ?lookup_insert_ne in * by apply partPath_ne_journalPath.
  all: rewrite ?lookup_insert_ne by apply partPath_ne_journalPath.
  all: try match goal with
           | Hj : files _ !! journalPathOf _ = Some ?c, Hd : json_Decode ?c = Some ?m |- _ =>
               assert (good_journal c) as Hgood by (eapply Hf; [by eexists | exact Hj]);
               assert (counts_its_parts m) as Hm by (by eapply good_journal_Decode);
               try rewrite Hj
           end.
  all: split; simpl; try done.
  all: repeat first
         [ assumption
         | apply sessions_ok_insert
         | apply journals_ok_insert; [intros Hjp|]
         | by (exfalso; eapply partPath_not_journal; eassumption)
         | rewrite lookup_insert_ne by apply partPath_ne_journalPath
         | match goal with
           | Hj : files _ !! _ = Some _ |- _ => rewrite Hj; simpl
           end
         | by apply good_journal_app
         | by (unfold counts_its_parts, sort.Sort in *; simpl;
               rewrite ?merge_sort_Permutation, ?length_app; simpl; lia) ].
Qed.

Lemma ok_CompleteMultipartUpload bucket object uploadID data signature now w :
  descriptors_ok w →
  descriptors_ok
    (CompleteMultipartUpload fs bucket object uploadID data signature now w).2.
Proof.
  intros [Ha Hf]. unfold CompleteMultipartUpload. unfold_M. simpl.
  repeat (case_match; simpl in *; simplify_eq); try done.
  all: rewrite ?negb_false_iff in *.
  all: repeat match goal with
         | Hc : concatParts _ _ _ _ _ = _ |- _ =>
             apply concatParts_spec in Hc as (Hcf & _ & Hca & _ & _ & _ & _)
         | Hc : removeParts _ _ _ = _ |- _ =>
             apply removeParts_spec in Hc as (_ & _ & Hra & _ & Hrf & _)
         | Hc : os.Remove _ _ = _ |- _ =>
             unfold os.Remove in Hc; case_match; simplify_eq
         end; simpl in *.
  all: split; simpl.
  all: rewrite ?Hra, ?Hca, ?Hcf.
  all: repeat first
         [ assumption
         | apply sessions_ok_delete
         | apply journals_ok_delete
         | apply journals_ok_insert;
           [intros Hjp; exfalso;
            eapply (valid_object_is_not_a_journal object); [done|];
            by eapply objectPath_journal|]
         | eapply journals_ok_fewer; [eassumption|]; simpl; rewrite ?Hcf ].
Qed.

Lemma removeAllParts_spec parts objectPath w :
  ∃ w1,
    removeAllParts parts objectPath w = (Ret tt, w1)
    ∧ ActiveSession w1 = ActiveSession w
    ∧ (∀ q, files w1 !! q = None ∨ files w1 !! q = files w !! q).
Proof.
  revert w. induction parts as [|part rest IH]; intros w; simpl.
  - exists w. unfold_M. auto.
  - unfold_M. simpl.
    edestruct IH as (w1 & -> & Ha & Hf). exists w1. split; [done|].
    split; [done|]. simpl in *.
    intros q. destruct (Hf q) as [?|E]; [by left|]. rewrite E.
    destruct (decide (partPathOf objectPath (PartNumber part) = q)) as [<-|].
    + left. apply lookup_delete_eq.
    + right. by apply lookup_delete_ne.
Qed.

Lemma ok_AbortMultipartUpload bucket object uploadID w :
  descriptors_ok w →
  descriptors_ok (AbortMultipartUpload fs bucket object uploadID w).2.
Proof.
  intros [Ha Hf]. unfold AbortMultipartUpload. unfold_M. simpl.
  repeat (case_match; simpl in *; simplify_eq); try done.
  all: match goal with
       | Hc : removeAllParts ?ps ?op ?w = _ |- _ =>
           destruct (removeAllParts_spec ps op w) as (w1 & Hr & Hra & Hrf);
           rewrite Hr in Hc; simplify_eq
       end.
  split; simpl.
  - rewrite Hra. by apply sessions_ok_delete.
  - apply journals_ok_delete. by eapply journals_ok_fewer.
Qed.

(** The loop of [ListObjectParts] stays within the slice when the
    descriptor has a part for every index up to the last one visited. *)
Lemma listPartsLoop_in_bounds count i session resources parts :
  1 ≤ i →
  (count ≠ 0%nat → i + Z.of_nat count - 1 ≤ Z.of_nat (length (Parts session))) →
  listPartsLoop count i session resources parts ≠ None.
Proof.
  revert i parts. induction count as [|count IH]; intros i parts Hi Hlen; simpl;
    [done|].
  specialize (Hlen ltac:(done)).
  case_match; [done|].
  unfold index. destruct (Z.ltb_spec (i - 1) 0) as [?|_]; [lia|].
  destruct (Parts session !! Z.to_nat (i - 1)) as [p|] eqn:Hp.
  - apply IH; lia.
  - apply lookup_ge_None in Hp. lia.
Qed.

Lemma ListObjectParts_no_fault bucket object resources w :
  descriptors_ok w →
  0 ≤ PartNumberMarker resources →
  (ListObjectParts fs bucket object resources w).1 ≠ Fault.
Proof.
  intros [Ha Hf] Hmarker. unfold ListObjectParts. unfold_M. simpl.
  repeat (case_match; simpl in *; simplify_eq); try done.
  all: match goal with
       | Hj : files _ !! journalPathOf _ = Some ?c, Hd : json_Decode ?c = Some ?m |- _ =>
           assert (good_journal c) as Hgood by (eapply Hf; [by eexists | exact Hj]);
           assert (counts_its_parts m) as Hm by (by eapply good_journal_Decode)
       end.
  all: match goal with
       | Hl : listPartsLoop _ _ _ _ _ = None |- _ =>
           apply listPartsLoop_in_bounds in Hl; [done| |intros Hcount]
       end.
  all: unfold counts_its_parts in Hm.
  all: repeat match goal with
         | E : (_ =? _) = true |- _ => apply Z.eqb_eq in E
         | E : (_ =? _) = false |- _ => apply Z.eqb_neq in E
         end.
  all: lia.
Qed.

(** One step of the engine: any of the four mutating calls with any
    arguments and any outcome, or a change of the directories and of the
    free space made outside the engine. *)
Inductive engine_step : World → World → Prop :=
  | step_New bucket object rnd now w :
      engine_step w (NewMultipartUpload fs bucket object rnd now w).2
  | step_Create bucket object uploadID expectedMD5Sum partID size data signature now w :
      engine_step w
        (CreateObjectPart fs bucket object uploadID expectedMD5Sum partID size
           data signature now w).2
  | step_Complete bucket object uploadID data signature now w :
      engine_step w
        (CompleteMultipartUpload fs bucket object uploadID data signature now w).2
  | step_Abort bucket object uploadID w :
      engine_step w (AbortMultipartUpload fs bucket object uploadID w).2
  | step_outside d a w :
      engine_step w
        (mkWorld (files w) d (temps w) (ActiveSession w) (savedSession w) a (events w)).

(** The worlds the engine can be in when it starts on an empty disk with
    an empty session map. *)
Definition reachable (w : World) : Prop :=
  ∃ w0, files w0 = ∅ ∧ ActiveSession w0 = ∅ ∧ rtc engine_step w0 w.

Lemma reachable_descriptors_ok w : reachable w → descriptors_ok w.
Proof.
  intros (w0 & Hf & Ha & Hsteps).
  assert (descriptors_ok w0) as Hw0.
  { split; intros x y; [rewrite Ha | intros _; rewrite Hf]; by rewrite lookup_empty. }
  clear Hf Ha. induction Hsteps as [|w1 w2 w3 Hstep _ IH]; [done|].
  apply IH. destruct Hstep.
  - by apply ok_NewMultipartUpload.
  - by apply ok_CreateObjectPart.
  - by apply ok_CompleteMultipartUpload.
  - by apply ok_AbortMultipartUpload.
  - done.
Qed.

End Descriptors.

Lemma has_dollar_journal q : Toy.has_dollar (journalPathOf q) = true.
Proof.
  unfold journalPathOf. induction q as [|c q IH].
  - by rewrite StrFacts.app_nil_l.
  - rewrite StrFacts.app_cons. simpl. rewrite IH. apply orb_true_r.
Qed.

Lemma toy_valid_object_is_not_a_journal object :
  IsValidObjectName (Platform := toy_platform) object = true →
  ¬ is_journal_path object.
Proof.
  intros Hv [q ->]. simpl in Hv. unfold Toy.valid_object in Hv.
  apply andb_true_iff in Hv as [_ Hv].
  by rewrite has_dollar_journal in Hv.
Qed.

Lemma scenario_reachable :
  reachable (H := toy_platform) Scenario.fs Scenario.two_parts.
Proof.
  exists Scenario.empty_disk. split; [done|]. split; [done|].
  eapply rtc_l; [exact (step_New Scenario.fs "b" "o" 7 1 Scenario.empty_disk)|].
  eapply rtc_l;
    [exact (step_Create Scenario.fs "b" "o" Scenario.uid "" 1 5 "hello" None 2
              Scenario.started)|].
  eapply rtc_l;
    [exact (step_Create Scenario.fs "b" "o" Scenario.uid "" 2 5 "world" None 3
              Scenario.one_part)|].
  apply rtc_refl.
Qed.




(** * Listing the sessions of a bucket *)

(** The listing entry of a visited map entry. *)
Definition uploadOf (entry : string * MultipartSession) : UploadMetadata :=
  newUpload entry.1 entry.2.

Lemma HasPrefix_empty s : Str.HasPrefix s "" = true.
Proof. unfold Str.HasPrefix. by destruct s. Qed.

(** With an empty prefix and an empty key marker every visited entry is
    gathered until the test [len(uploads) > MaxUploads] holds, and that is
    when [MaxUploads + 1] entries are gathered. *)
Lemma listUploadsLoop_unfiltered resources k entries uploads :
  Prefix resources = "" →
  KeyMarker resources = "" →
  MaxUploads resources = Z.of_nat k →
  (length uploads ≤ S k)%nat →
  listUploadsLoop resources entries uploads =
    match entries !! (S k - length uploads)%nat with
    | Some (object, session) =>
        inl (mkBucketResources
               (KeyMarker resources) (UploadIDMarker resources)
               object (UploadID session)
               (MaxUploads resources) true
               (sort.Sort byUploadMetadataKey_Less
                  (uploads ++ map uploadOf (take (S k - length uploads) entries)))
               (Prefix resources))
    | None => inr (uploads ++ map uploadOf entries)
    end.
Proof.
  intros Hp Hk Hm. revert uploads.
  induction entries as [|[object session] rest IH]; intros uploads Hlen.
  - simpl. by rewrite ?lookup_nil, app_nil_r.
  - simpl. rewrite Hp, HasPrefix_empty, Hm, Hk. simpl.
    destruct (Z.gtb_spec (Z.of_nat (length uploads)) (Z.of_nat k)) as [Hgt|Hle].
    + replace (S k - length uploads)%nat with 0%nat by lia.
      simpl. by rewrite app_nil_r.
    + rewrite IH by (rewrite length_app; simpl; lia).
      rewrite length_app. simpl.
      replace (S k - length uploads)%nat with (S (k - length uploads)) by lia.
      replace (S k - (length uploads + 1))%nat with (k - length uploads)%nat by lia.
      simpl. by rewrite Hp, Hk, Hm, <- !app_assoc.
Qed.

Section ListUploads.
Context `{Platform}.

(** C4, what the code does: with an empty prefix, empty markers and
    [MaxUploads = k], when the session map has more than [k] entries,
    visited in the order [order], the listing holds [k + 1] uploads, the
    first [k + 1] entries the loop visited, sorted by key.  It is marked
    truncated only when a further entry was visited, and the next key
    marker is then the key of that entry, the one visited at position
    [k + 2]. *)
Theorem C4_truncated_listing_has_one_more
    fs bucket resources order w (k : nat) :
  IsValidBucket bucket = true →
  os.exists_at (bucketPathOf fs bucket) w = true →
  Prefix resources = "" →
  KeyMarker resources = "" →
  MaxUploads resources = Z.of_nat k →
  NoDup order.*1 →
  ActiveSession w = list_to_map order →
  (k < length order)%nat →
  ∃ listed,
    ListMultipartUploads fs bucket resources order w = (Ret listed, w)
    ∧ Upload listed
      = sort.Sort byUploadMetadataKey_Less (map uploadOf (take (S k) order))
    ∧ length (Upload listed) = S k
    ∧ match order !! S k with
      | Some (object, session) =>
          bIsTruncated listed = true
          ∧ NextKeyMarker listed = object
          ∧ NextUploadIDMarker listed = UploadID session
      | None =>
          bIsTruncated listed = bIsTruncated resources
          ∧ NextKeyMarker listed = NextKeyMarker resources
      end.
Proof.
  intros Hb Hex Hp Hk Hm _ _ Hlen.
  assert (length (sort.Sort byUploadMetadataKey_Less
                    (map uploadOf (take (S k) order))) = S k) as Hsorted.
  { unfold sort.Sort. rewrite merge_sort_Permutation, length_map, list.length_take. lia. }
  unfold ListMultipartUploads. unfold_M. rewrite Hb. simpl. rewrite Hex. simpl.
  rewrite (listUploadsLoop_unfiltered resources k) by (done || simpl; lia).
  simpl. destruct (order !! S k) as [[object session]|] eqn:Hnext.
  - eexists. split; [done|]. simpl. done.
  - eexists. split; [done|]. simpl.
    apply lookup_ge_None in Hnext.
    rewrite take_ge in * by lia. done.
Qed.
End ListUploads.

Module Listing.

(** Five sessions in bucket ["b"], under the keys a, b, c, d and e. *)
Definition five_sessions : World :=
  Scenario.after (NewMultipartUpload Scenario.fs "b" "e" 5 5)
    (Scenario.after (NewMultipartUpload Scenario.fs "b" "d" 4 4)
       (Scenario.after (NewMultipartUpload Scenario.fs "b" "c" 3 3)
          (Scenario.after (NewMultipartUpload Scenario.fs "b" "b" 2 2)
             (Scenario.after (NewMultipartUpload Scenario.fs "b" "a" 1 1)
                Scenario.empty_disk)))).

Definition session_of (object : string) (n : Z) : string * MultipartSession :=
  (object, mkSession (Toy.upload_id n "b" object n) n 0 []).

(** The entries in key order. *)
Definition in_key_order : list (string * MultipartSession) :=
  [session_of "a" 1; session_of "b" 2; session_of "c" 3; session_of "d" 4;
   session_of "e" 5].

Definition at_most_two : BucketMultipartResourcesMetadata :=
  mkBucketResources "" "" "" "" 2 false [] "".

End Listing.


Lemma five_sessions_entries :
  NoDup Listing.in_key_order.*1
  ∧ ActiveSession Listing.five_sessions = list_to_map Listing.in_key_order.
Proof.
  split.
  - apply (bool_decide_unpack _). by vm_compute.
  - by vm_compute.
Qed.

Lemma C4_truncated_listing_has_one_more_witness :
  ∃ listed,
    ListMultipartUploads Scenario.fs "b" Listing.at_most_two
      Listing.in_key_order Listing.five_sessions
    = (Ret listed, Listing.five_sessions)
    ∧ Upload listed
      = sort.Sort byUploadMetadataKey_Less
          (map uploadOf (take 3 Listing.in_key_order))
    ∧ length (Upload listed) = 3%nat
    ∧ bIsTruncated listed = true
    ∧ NextKeyMarker listed = "d"
    ∧ NextUploadIDMarker listed = Toy.upload_id 4 "b" "d" 4.
Proof.
  apply (C4_truncated_listing_has_one_more (H := toy_platform)
           Scenario.fs "b" Listing.at_most_two Listing.in_key_order
           Listing.five_sessions 2).
  - reflexivity.
  - vm_compute. reflexivity.
  - reflexivity.
  - reflexivity.
  - reflexivity.
  - apply five_sessions_entries.
  - apply five_sessions_entries.
  - simpl. lia.
Defined.

(** The listing of the example, evaluated: three uploads, a, b and c, and
    the next key marker d. *)
Lemma five_sessions_at_most_two :
  ∃ listed,
    ListMultipartUploads Scenario.fs "b" Listing.at_most_two
      Listing.in_key_order Listing.five_sessions
    = (Ret listed, Listing.five_sessions)
    ∧ map uObject (Upload listed) = ["a"; "b"; "c"]
    ∧ bIsTruncated listed = true
    ∧ NextKeyMarker listed = "d".
Proof. eexists. split; [by vm_compute|]. by vm_compute. Qed.

(** * Calls that are turned away *)

Section Rejected.
Context `{Platform}.

(** X1: The disk guard of [NewMultipartUpload] and [CreateObjectPart] is their
    first test: when the free space is not above the threshold both fail
    with [RootPathFull], whatever their other arguments are, and nothing
    changes. *)
Theorem full_disk_rejects_uploads fs bucket object rnd now uploadID
    expectedMD5Sum partID size data signature w :
  availablePct w ≤ minFreeDisk fs →
  NewMultipartUpload fs bucket object rnd now w
    = (Fail (probe_NewError (RootPathFull (path fs))), w)
  ∧ CreateObjectPart fs bucket object uploadID expectedMD5Sum partID size data
      signature now w
    = (Fail (probe_NewError (RootPathFull (path fs))), w).
Proof.
  intros Hfull. unfold NewMultipartUpload, CreateObjectPart. unfold_M. simpl.
  destruct (Z.leb_spec (availablePct w) (minFreeDisk fs)) as [_|?]; [done|lia].
Qed.

(** X2: An upload ID that is not the one of the object's session is turned
    away by all four calls that take one, with [InvalidUploadID] and no
    effect.  For [CreateObjectPart] the disk guard and the test of the part
    number come before. *)
Theorem unknown_upload_id_is_rejected fs bucket object uploadID expectedMD5Sum
    partID size data signature now resources w :
  IsValidBucket bucket = true →
  IsValidObjectName object = true →
  isValidUploadID object uploadID w = false →
  rUploadID resources = uploadID →
  (minFreeDisk fs < availablePct w → 0 < partID →
   CreateObjectPart fs bucket object uploadID expectedMD5Sum partID size data
     signature now w
   = (Fail (probe_NewError (InvalidUploadID uploadID)), w))
  ∧ CompleteMultipartUpload fs bucket object uploadID data signature now w
    = (Fail (probe_NewError (InvalidUploadID uploadID)), w)
  ∧ ListObjectParts fs bucket object resources w
    = (Fail (probe_NewError (InvalidUploadID uploadID)), w)
  ∧ AbortMultipartUpload fs bucket object uploadID w
    = (Fail (probe_NewError (InvalidUploadID uploadID)), w).
Proof.
  intros Hb Ho Hu <-.
  unfold CreateObjectPart, CompleteMultipartUpload, ListObjectParts,
    AbortMultipartUpload.
  unfold_M. simpl. rewrite Hb, Ho, Hu. simpl.
  split; [|done]. intros Hfree Hid.
  destruct (Z.leb_spec (availablePct w) (minFreeDisk fs)) as [?|_]; [lia|].
  destruct (Z.leb_spec partID 0) as [?|_]; [lia|]. done.
Qed.

End Rejected.

Lemma full_disk_rejects_uploads_witness :
  NewMultipartUpload Scenario.fs "b" "o" 7 1
    (mkWorld ∅ {["/data/b"]} ∅ ∅ None 10 [])
    = (Fail (probe_NewError (RootPathFull "/data")),
       mkWorld ∅ {["/data/b"]} ∅ ∅ None 10 [])
  ∧ CreateObjectPart Scenario.fs "b" "o" "any" "" 1 5 "hello" None 1
      (mkWorld ∅ {["/data/b"]} ∅ ∅ None 10 [])
    = (Fail (probe_NewError (RootPathFull "/data")),
       mkWorld ∅ {["/data/b"]} ∅ ∅ None 10 []).
Proof.
  apply (full_disk_rejects_uploads (H := toy_platform) Scenario.fs "b" "o" 7 1
           "any" "" 1 5 "hello" None (mkWorld ∅ {["/data/b"]} ∅ ∅ None 10 [])).
  simpl. lia.
Defined.

Lemma unknown_upload_id_is_rejected_witness :
  (minFreeDisk Scenario.fs < availablePct Scenario.started → 0 < 1 →
   CreateObjectPart Scenario.fs "b" "o" "other" "" 1 5 "hello" None 2
     Scenario.started
   = (Fail (probe_NewError (InvalidUploadID "other")), Scenario.started))
  ∧ CompleteMultipartUpload Scenario.fs "b" "o" "other" "hello" None 2
      Scenario.started
    = (Fail (probe_NewError (InvalidUploadID "other")), Scenario.started)
  ∧ ListObjectParts Scenario.fs "b" "o"
      (mkObjectResources "" "" "other" 0 0 10 false []) Scenario.started
    = (Fail (probe_NewError (InvalidUploadID "other")), Scenario.started)
  ∧ AbortMultipartUpload Scenario.fs "b" "o" "other" Scenario.started
    = (Fail (probe_NewError (InvalidUploadID "other")), Scenario.started).
Proof.
  apply (unknown_upload_id_is_rejected (H := toy_platform) Scenario.fs "b" "o"
           "other" "" 1 5 "hello" None 2
           (mkObjectResources "" "" "other" 0 0 10 false []) Scenario.started).
  - reflexivity.
  - reflexivity.
  - vm_compute. reflexivity.
  - reflexivity.
Defined.

(** * Aborting an upload *)

Section Abort.
Context `{Platform}.

(** The loop of [AbortMultipartUpload] over the parts of the descriptor:
    it cannot fail, it removes the file of every part it is given and
    touches no other file. *)
Lemma removeAllParts_files parts objectPath w :
  ∃ w1,
    removeAllParts parts objectPath w = (Ret tt, w1)
    ∧ ActiveSession w1 = ActiveSession w
    ∧ savedSession w1 = savedSession w
    ∧ dirs w1 = dirs w
    ∧ temps w1 = temps w
    ∧ (∀ p, p ∈ parts → files w1 !! partPathOf objectPath (PartNumber p) = None)
    ∧ (∀ q, (∀ p, p ∈ parts → q ≠ partPathOf objectPath (PartNumber p)) →
            files w1 !! q = files w !! q).
Proof.
  revert w. induction parts as [|part rest IH]; intros w; simpl.
  - exists w. unfold_M. repeat split; try done.
    intros p Hp. by apply elem_of_nil in Hp.
  - unfold_M. simpl.
    edestruct IH as (w1 & -> & Ha & Hs & Hd & Ht & Hgone & Hkept).
    exists w1. simpl in *. repeat split; try done.
    + intros p [->|Hp]%elem_of_cons; [|by apply Hgone].
      destruct (decide (PartNumber part ∈ PartNumber <$> rest)) as [Hin|Hno].
      * apply list_elem_of_fmap in Hin as (p' & E & Hp').
        rewrite E. by apply Hgone.
      * rewrite Hkept; [apply lookup_delete_eq|].
        intros p' Hp' E. apply partPath_inj in E. apply Hno.
        apply list_elem_of_fmap. by exists p'.
    + intros q Hq. rewrite Hkept.
      * apply lookup_delete_ne. apply not_eq_sym, Hq. by left.
      * intros p Hp. apply Hq. by right.
Qed.

(** X14: With the upload ID of the object's session, [AbortMultipartUpload]
    always succeeds: a part file that is missing is no error.  Afterwards
    the object has no session, no journal and no file for any part the
    descriptor in the session map lists, every other file is as before,
    and the persisted map is not written. *)
Theorem abort_ends_the_session fs bucket object uploadID w :
  IsValidBucket bucket = true →
  IsValidObjectName object = true →
  isValidUploadID object uploadID w = true →
  os.exists_at (bucketPathOf fs bucket) w = true →
  ∃ session w',
    ActiveSession w !! object = Some session
    ∧ AbortMultipartUpload fs bucket object uploadID w = (Ret tt, w')
    ∧ ActiveSession w' = delete object (ActiveSession w)
    ∧ savedSession w' = savedSession w
    ∧ files w' !! journalPathOf (objectPathOf fs bucket object) = None
    ∧ (∀ p, p ∈ Parts session →
            files w' !! partPathOf (objectPathOf fs bucket object) (PartNumber p) = None)
    ∧ (∀ q, q ≠ journalPathOf (objectPathOf fs bucket object) →
            (∀ p, p ∈ Parts session →
                  q ≠ partPathOf (objectPathOf fs bucket object) (PartNumber p)) →
            files w' !! q = files w !! q).
Proof.
  intros Hb Ho Hu He.
  unfold AbortMultipartUpload. unfold_M. simpl.
  rewrite Hb, Ho, Hu. simpl. rewrite He. simpl.
  unfold isValidUploadID in Hu.
  destruct (ActiveSession w !! object) as [session|] eqn:Hs; [|done].
  fold (objectPathOf fs bucket object).
  destruct (removeAllParts_files (Parts session) (objectPathOf fs bucket object) w)
    as (w1 & -> & Ha & Hsv & _ & _ & Hgone & Hkept).
  eexists session, _. split; [done|]. split; [reflexivity|]. simpl.
  rewrite Ha. repeat split; try done.
  - apply lookup_delete_eq.
  - intros p Hp. 
    rewrite lookup_delete_ne by (apply not_eq_sym, partPath_ne_journalPath).
    by apply Hgone.
  - intros q Hq1 Hq2. rewrite lookup_delete_ne by done. by apply Hkept.
Qed.

(** What a successful [AbortMultipartUpload] tells about the call. *)
Lemma AbortMultipartUpload_Ret fs bucket object uploadID w w' :
  AbortMultipartUpload fs bucket object uploadID w = (Ret tt, w') →
  IsValidBucket bucket = true
  ∧ IsValidObjectName object = true
  ∧ ActiveSession w' = delete object (ActiveSession w).
Proof.
  unfold AbortMultipartUpload. unfold_M. simpl.
  destruct (IsValidBucket bucket); simpl; [|done].
  destruct (IsValidObjectName object); simpl; [|done].
  destruct (isValidUploadID object uploadID w); simpl; [|done].
  destruct (os.exists_at (bucketPathOf fs bucket) w); simpl; [|done].
  destruct (ActiveSession w !! object) as [session|]; [|done].
  match goal with
  | |- context [removeAllParts ?ps ?op ?w0] =>
      destruct (removeAllParts_files ps op w0) as (w1 & -> & Ha & _)
  end.
  intros [= <-]. simpl. by rewrite Ha.
Qed.

(** X15: After a successful [AbortMultipartUpload] no upload ID is valid for the
    object: a second abort, with the same or any other ID, fails with
    [InvalidUploadID] and changes nothing. *)
Theorem second_abort_is_rejected fs bucket object uploadID w w' :
  AbortMultipartUpload fs bucket object uploadID w = (Ret tt, w') →
  ∀ id,
    isValidUploadID object id w' = false
    ∧ AbortMultipartUpload fs bucket object id w'
      = (Fail (probe_NewError (InvalidUploadID id)), w').
Proof.
  intros Hrun id.
  apply AbortMultipartUpload_Ret in Hrun as (Hb & Ho & Ha).
  assert (isValidUploadID object id w' = false) as Hid.
  { unfold isValidUploadID. by rewrite Ha, lookup_delete_eq. }
  split; [done|].
  unfold AbortMultipartUpload. unfold_M. simpl.
  by rewrite Hb, Ho, Hid.
Qed.

End Abort.

Lemma abort_ends_the_session_witness :
  ∃ session w',
    ActiveSession Scenario.two_parts !! "o" = Some session
    ∧ AbortMultipartUpload Scenario.fs "b" "o" Scenario.uid Scenario.two_parts
      = (Ret tt, w')
    ∧ ActiveSession w' = delete "o" (ActiveSession Scenario.two_parts)
    ∧ savedSession w' = savedSession Scenario.two_parts
    ∧ files w' !! journalPathOf (objectPathOf Scenario.fs "b" "o") = None
    ∧ (∀ p, p ∈ Parts session →
            files w' !! partPathOf (objectPathOf Scenario.fs "b" "o") (PartNumber p)
            = None)
    ∧ (∀ q, q ≠ journalPathOf (objectPathOf Scenario.fs "b" "o") →
            (∀ p, p ∈ Parts session →
                  q ≠ partPathOf (objectPathOf Scenario.fs "b" "o") (PartNumber p)) →
            files w' !! q = files Scenario.two_parts !! q).
Proof.
  apply (abort_ends_the_session (H := toy_platform) Scenario.fs "b" "o"
           Scenario.uid Scenario.two_parts).
  - reflexivity.
  - reflexivity.
  - vm_compute. reflexivity.
  - vm_compute. reflexivity.
Defined.

(** The world after the upload of two parts is aborted. *)
Definition aborted : World :=
  Scenario.after (AbortMultipartUpload Scenario.fs "b" "o" Scenario.uid)
    Scenario.two_parts.

Lemma second_abort_is_rejected_witness :
  isValidUploadID "o" Scenario.uid aborted = false
  ∧ AbortMultipartUpload Scenario.fs "b" "o" Scenario.uid aborted
    = (Fail (probe_NewError (InvalidUploadID Scenario.uid)), aborted).
Proof.
  apply (second_abort_is_rejected (H := toy_platform) Scenario.fs "b" "o"
           Scenario.uid Scenario.two_parts aborted).
  vm_compute. reflexivity.
Defined.

(** * Uploading a part *)

Section Upload.
Context `{Platform}.

(** The tests of [CreateObjectPart] that come before the stream is read. *)
Definition upload_admitted (fs : Filesystem) (bucket object uploadID : string)
    (partID : Z) (w : World) : Prop :=
  minFreeDisk fs < availablePct w
  ∧ 0 < partID
  ∧ IsValidBucket bucket = true
  ∧ IsValidObjectName object = true
  ∧ isValidUploadID object uploadID w = true
  ∧ os.exists_at (bucketPathOf fs bucket) w = true.

(** The [Content-MD5] of the request is absent, or it is the base64 of the
    MD5 of the bytes [copied]. *)
Definition digest_passes (expectedMD5Sum copied : string) : Prop :=
  TrimSpace expectedMD5Sum = ""
  ∨ base64_DecodeString (TrimSpace expectedMD5Sum) = Some (md5_Sum copied).

Lemma isMD5SumEqual_refl s : isMD5SumEqual s s = true.
Proof. unfold isMD5SumEqual. apply String.eqb_refl. Qed.

(** X5: A stream that ends before [size] bytes: [io.CopyN] answers [io.EOF],
    the temp file of the part is purged and the call fails with that
    error; the files on disk, the session map and the persisted map are as
    before. *)
Theorem short_stream_is_rejected fs bucket object uploadID expectedMD5Sum partID
    size data signature now w :
  upload_admitted fs bucket object uploadID partID w →
  TrimSpace expectedMD5Sum = ""
    ∨ is_Some (base64_DecodeString (TrimSpace expectedMD5Sum)) →
  Str.len data < size →
  ∃ w',
    CreateObjectPart fs bucket object uploadID expectedMD5Sum partID size data
      signature now w
    = (Fail (probe_NewError EOF), w')
    ∧ files w' = files w
    ∧ ActiveSession w' = ActiveSession w
    ∧ savedSession w' = savedSession w
    ∧ temps w' !! partPathOf (objectPathOf fs bucket object) partID = None.
Proof.
  intros (Hfree & Hid & Hb & Ho & Hu & He) Hmd5 Hshort.
  assert ((Str.len (Str.take (Z.to_nat size) data) <? size) = true) as Hcut.
  { apply Z.ltb_lt. unfold Str.len in *. rewrite length_take. lia. }
  unfold CreateObjectPart, io_CopyN. unfold_M. simpl.
  destruct (Z.leb_spec (availablePct w) (minFreeDisk fs)) as [?|_]; [lia|].
  destruct (Z.leb_spec partID 0) as [?|_]; [lia|]. simpl.
  rewrite Hb, Ho, Hu. simpl.
  destruct Hmd5 as [->|[digest ->]]; simpl.
  - rewrite He. simpl. rewrite Hcut. simpl.
    eexists; split; [reflexivity|]. simpl.
    repeat split. apply lookup_delete_eq.
  - destruct (String.eqb (TrimSpace expectedMD5Sum) ""); simpl.
    all: rewrite He; simpl; rewrite Hcut; simpl.
    all: eexists; (split; [reflexivity|]); simpl.
    all: repeat split; apply lookup_delete_eq.
Qed.

(** X6: A [Content-MD5] that is not base64 is refused with [InvalidDigest]
    before the part's temp file is created. *)
Theorem undecodable_digest_is_rejected fs bucket object uploadID expectedMD5Sum
    partID size data signature now w :
  upload_admitted fs bucket object uploadID partID w →
  TrimSpace expectedMD5Sum ≠ "" →
  base64_DecodeString (TrimSpace expectedMD5Sum) = None →
  CreateObjectPart fs bucket object uploadID expectedMD5Sum partID size data
    signature now w
  = (Fail (probe_NewError (InvalidDigest expectedMD5Sum)), w).
Proof.
  intros (Hfree & Hid & Hb & Ho & Hu & He) Hne Hdec.
  unfold CreateObjectPart. unfold_M. simpl.
  destruct (Z.leb_spec (availablePct w) (minFreeDisk fs)) as [?|_]; [lia|].
  destruct (Z.leb_spec partID 0) as [?|_]; [lia|]. simpl.
  rewrite Hb, Ho, Hu. simpl.
  by rewrite (StrFacts.eqb_false_ne _ _ Hne), Hdec.
Qed.

(** Two worlds with the same fields are the same world. *)
Lemma World_eq (w1 w2 : World) :
  files w1 = files w2 → dirs w1 = dirs w2 → temps w1 = temps w2 →
  ActiveSession w1 = ActiveSession w2 → savedSession w1 = savedSession w2 →
  availablePct w1 = availablePct w2 → events w1 = events w2 →
  w1 = w2.
Proof. destruct w1, w2. simpl. by intros -> -> -> -> -> -> ->. Qed.

(** The run of [CreateObjectPart] up to the signature check, for a call
    that is admitted, receives its bytes and passes the digest test. *)
Lemma CreateObjectPart_checked fs bucket object uploadID expectedMD5Sum partID
    size data signature now w :
  upload_admitted fs bucket object uploadID partID w →
  size ≤ Str.len data →
  digest_passes expectedMD5Sum (Str.take (Z.to_nat size) data) →
  let copied := Str.take (Z.to_nat size) data in
  let partPath := partPathOf (objectPathOf fs bucket object) partID in
  let w1 := set_temps (λ t, <[partPath := default "" (t !! partPath) +:+ copied]> t)
              (add_event (EvFileCreate partPath)
                 (set_temps (insert partPath "") w)) in
  CreateObjectPart fs bucket object uploadID expectedMD5Sum partID size data
    signature now w
  = match
      match signature with
      | Some sig =>
          match DoesSignatureMatch sig (hex.EncodeToString (sha256_Sum copied)) with
          | SigErr perr => Some (probe_Trace perr)
          | SigOk false => Some (probe_NewError SignatureDoesNotMatch)
          | SigOk true => None
          end
      | None => None
      end
    with
    | Some perr =>
        (Fail perr, add_event (EvPurge partPath) (set_temps (delete partPath) w1))
    | None =>
        match files w !! journalPathOf (objectPathOf fs bucket object) with
        | None =>
            (Fail (probe_NewError
                     (PathError "open"
                              (journalPathOf (objectPathOf fs bucket object)))),
             add_event (EvPublish partPath)
               (set_temps (delete partPath) (set_files (insert partPath copied) w1)))
        | Some journal =>
            match json_Decode journal with
            | None =>
                (Fail (probe_NewError SyntaxError),
                 add_event (EvPublish partPath)
                   (set_temps (delete partPath)
                      (set_files (insert partPath copied) w1)))
            | Some d =>
                let part := mkPart partID now
                              (hex.EncodeToString (md5_Sum copied)) (Str.len copied) in
                (Ret (hex.EncodeToString (md5_Sum copied)),
                 add_event
                   (EvWriteJournal (journalPathOf (objectPathOf fs bucket object)))
                   (set_files
                      (insert (journalPathOf (objectPathOf fs bucket object))
                         (journal +:+ json_Encode (appendPart d part)))
                      (set_sessions (insert object (appendPart d part))
                         (add_event (EvSetSession object)
                            (add_event (EvPublish partPath)
                               (set_temps (delete partPath)
                                  (set_files (insert partPath copied) w1)))))))
            end
        end
    end.
Proof.
  intros (Hfree & Hid & Hb & Ho & Hu & He) Hsize Hdigest. simpl.
  unfold CreateObjectPart, io_CopyN, appendPart. unfold_M. simpl.
  destruct (Z.leb_spec (availablePct w) (minFreeDisk fs)) as [?|_]; [lia|].
  destruct (Z.leb_spec partID 0) as [?|_]; [lia|]. simpl.
  rewrite Hb, Ho, Hu. simpl.
  assert (∃ expected,
            (if negb (String.eqb (TrimSpace expectedMD5Sum) "") then
               match base64_DecodeString (TrimSpace expectedMD5Sum) with
               | None => fail (InvalidDigest expectedMD5Sum)
               | Some expectedMD5SumBytes =>
                   mret (hex.EncodeToString expectedMD5SumBytes)
               end
             else mret expectedMD5Sum) w = (Ret expected, w)
            ∧ negb (String.eqb (TrimSpace expected) "")
              && negb (isMD5SumEqual (TrimSpace expected)
                         (hex.EncodeToString
                            (md5_Sum (Str.take (Z.to_nat size) data)))) = false)
    as (expected & Hexp & Htest).
  { destruct Hdigest as [E|E].
    - exists expectedMD5Sum. by rewrite E.
    - destruct (String.eqb (TrimSpace expectedMD5Sum) "") eqn:Hempty; simpl.
      + exists expectedMD5Sum. by rewrite Hempty.
      + rewrite E. eexists; split; [done|].
        rewrite TrimSpace_hex, isMD5SumEqual_refl. simpl. apply andb_false_r. }
  unfold_M. rewrite Hexp. simpl. rewrite He. simpl.
  rewrite (CopyN_enough _ _ Hsize), Htest. simpl.
  fold (objectPathOf fs bucket object).
  destruct signature as [sig|];
    [destruct (DoesSignatureMatch sig _) as [[]|]|]; simpl.
  all: try reflexivity.
  all: repeat (rewrite lookup_insert_eq; simpl).
  all: rewrite ?StrFacts.app_nil_l.
  all: rewrite !lookup_insert_ne by apply partPath_ne_journalPath.
  all: destruct (files w !! journalPathOf (objectPathOf fs bucket object))
         as [journal|] eqn:Hj; simpl; [|reflexivity].
  all: rewrite ?StrFacts.app_nil_l.
  all: destruct (json_Decode journal) as [d|]; simpl; [|reflexivity].
  all: f_equal; apply World_eq; simpl; try reflexivity.
  all: rewrite ?lookup_insert_ne by apply partPath_ne_journalPath.
  all: rewrite ?Hj, ?insert_insert_eq; reflexivity.
Qed.


(** X7: A verifier that does not answer [true] stops the upload after the
    bytes were received: on [false] the call fails with
    [SignatureDoesNotMatch], on an error of the verifier with that error,
    traced.  The temp file of the part is purged; the files on disk, the
    session map and the persisted map are as before. *)
Theorem upload_stops_at_the_verifier fs bucket object uploadID expectedMD5Sum
    partID size data sig now w answer :
  upload_admitted fs bucket object uploadID partID w →
  size ≤ Str.len data →
  digest_passes expectedMD5Sum (Str.take (Z.to_nat size) data) →
  DoesSignatureMatch sig
    (hex.EncodeToString (sha256_Sum (Str.take (Z.to_nat size) data))) = answer →
  answer ≠ SigOk true →
  ∃ w',
    CreateObjectPart fs bucket object uploadID expectedMD5Sum partID size data
      (Some sig) now w
    = (Fail match answer with
            | SigErr perr => probe_Trace perr
            | SigOk _ => probe_NewError SignatureDoesNotMatch
            end, w')
    ∧ files w' = files w
    ∧ ActiveSession w' = ActiveSession w
    ∧ savedSession w' = savedSession w
    ∧ temps w' !! partPathOf (objectPathOf fs bucket object) partID = None.
Proof.
  intros Hadm Hsize Hdigest Hsig Hno.
  rewrite (CreateObjectPart_checked _ _ _ _ _ _ _ _ _ _ _ Hadm Hsize Hdigest).
  rewrite Hsig. destruct answer as [[]|perr]; [done|..].
  all: eexists; split; [reflexivity|]; simpl.
  all: repeat split; apply lookup_delete_eq.
Qed.

(** X8: A part that is admitted, arrives whole, passes the digest test and
    the verifier, for a session whose journal decodes: the call succeeds
    and returns the lowercase hex MD5 of the bytes; the bytes are the file
    at the part path, replacing what was there; the descriptor decoded from
    the journal, extended by the part, is the object's entry in the session
    map and is appended to the journal; no other file and no other session
    changes, and the persisted map is not written. *)
Theorem upload_stores_the_part fs bucket object uploadID expectedMD5Sum partID
    size data signature now w journal d :
  upload_admitted fs bucket object uploadID partID w →
  size ≤ Str.len data →
  digest_passes expectedMD5Sum (Str.take (Z.to_nat size) data) →
  signature_passes signature (Str.take (Z.to_nat size) data) →
  files w !! journalPathOf (objectPathOf fs bucket object) = Some journal →
  json_Decode journal = Some d →
  let copied := Str.take (Z.to_nat size) data in
  let etag := hex.EncodeToString (md5_Sum copied) in
  let part := mkPart partID now etag (Str.len copied) in
  ∃ w',
    CreateObjectPart fs bucket object uploadID expectedMD5Sum partID size data
      signature now w
    = (Ret etag, w')
    ∧ files w' !! partPathOf (objectPathOf fs bucket object) partID = Some copied
    ∧ files w' !! journalPathOf (objectPathOf fs bucket object)
      = Some (journal +:+ json_Encode (appendPart d part))
    ∧ (∀ q, q ≠ partPathOf (objectPathOf fs bucket object) partID →
            q ≠ journalPathOf (objectPathOf fs bucket object) →
            files w' !! q = files w !! q)
    ∧ ActiveSession w' = <[object := appendPart d part]> (ActiveSession w)
    ∧ part ∈ Parts (appendPart d part)
    ∧ TotalParts (appendPart d part) = TotalParts d + 1
    ∧ savedSession w' = savedSession w
    ∧ temps w' !! partPathOf (objectPathOf fs bucket object) partID = None.
Proof.
  intros Hadm Hsize Hdigest Hsig Hj Hd. simpl.
  rewrite (CreateObjectPart_checked _ _ _ _ _ _ _ _ _ _ _ Hadm Hsize Hdigest).
  assert (match signature with
          | Some sig =>
              match DoesSignatureMatch sig
                      (hex.EncodeToString
                         (sha256_Sum (Str.take (Z.to_nat size) data))) with
              | SigErr perr => Some (probe_Trace perr)
              | SigOk false => Some (probe_NewError SignatureDoesNotMatch)
              | SigOk true => None
              end
          | None => None
          end = None) as ->.
  { destruct signature as [sig|]; [|done]. simpl in Hsig. by rewrite Hsig. }
  rewrite Hj, Hd.
  eexists; split; [reflexivity|]; simpl.
  repeat split.
  - rewrite lookup_insert_ne by (apply not_eq_sym, partPath_ne_journalPath).
    apply lookup_insert_eq.
  - apply lookup_insert_eq.
  - intros q Hq1 Hq2. by rewrite !lookup_insert_ne.
  - unfold sort.Sort. rewrite merge_sort_Permutation.
    apply elem_of_app. right. by left.
  - apply lookup_delete_eq.
Qed.

End Upload.

Lemma scenario_admitted :
  upload_admitted (H := toy_platform) Scenario.fs "b" "o" Scenario.uid 1
    Scenario.started.
Proof. repeat split; by vm_compute. Qed.

Lemma short_stream_is_rejected_witness :
  ∃ w',
    CreateObjectPart Scenario.fs "b" "o" Scenario.uid "" 1 9 "hello" None 2
      Scenario.started
    = (Fail (probe_NewError EOF), w')
    ∧ files w' = files Scenario.started
    ∧ ActiveSession w' = ActiveSession Scenario.started
    ∧ savedSession w' = savedSession Scenario.started
    ∧ temps w' !! partPathOf (objectPathOf Scenario.fs "b" "o") 1 = None.
Proof.
  apply (short_stream_is_rejected (H := toy_platform)).
  - exact scenario_admitted.
  - left. reflexivity.
  - vm_compute. reflexivity.
Defined.

(** A platform whose base64 decoder refuses the text ["?"]. *)
Definition strict_platform : Platform.
Proof.
  refine {|
    md5_Sum := Toy.md5;
    sha256_Sum := Toy.sha256;
    base64_DecodeString := λ s, if String.eqb s "?" then None else Some s;
    TrimSpace := λ s, s;
    json_Encode := Toy.Encode;
    json_Decode := Toy.Decode;
    xml_Unmarshal := Toy.Unmarshal;
    IsValidBucket := Toy.valid_bucket;
    IsValidObjectName := Toy.valid_object;
    newUploadID := Toy.upload_id;
  |}.
  - apply ToyFacts.Decode_Encode.
  - done.
  - intros s b. destruct (String.eqb s "?"); [done|]. by intros [= ->].
Defined.

Lemma undecodable_digest_is_rejected_witness :
  CreateObjectPart (H := strict_platform) Scenario.fs "b" "o" Scenario.uid "?" 1 5
    "hello" None 2 Scenario.started
  = (Fail (probe_NewError (InvalidDigest "?")), Scenario.started).
Proof.
  apply (undecodable_digest_is_rejected (H := strict_platform)).
  - repeat split; by vm_compute.
  - done.
  - reflexivity.
Defined.

(** A verifier that answers [false]. *)
Definition refusing_verifier : Signature := mkSignature (λ _, SigOk false).

Lemma upload_stops_at_the_verifier_witness :
  ∃ w',
    CreateObjectPart Scenario.fs "b" "o" Scenario.uid "" 1 5 "hello"
      (Some refusing_verifier) 2 Scenario.started
    = (Fail (probe_NewError SignatureDoesNotMatch), w')
    ∧ files w' = files Scenario.started
    ∧ ActiveSession w' = ActiveSession Scenario.started
    ∧ savedSession w' = savedSession Scenario.started
    ∧ temps w' !! partPathOf (objectPathOf Scenario.fs "b" "o") 1 = None.
Proof.
  apply (upload_stops_at_the_verifier (H := toy_platform) Scenario.fs "b" "o"
           Scenario.uid "" 1 5 "hello" refusing_verifier 2 Scenario.started
           (SigOk false)).
  - exact scenario_admitted.
  - vm_compute. by intros [=].
  - left. reflexivity.
  - reflexivity.
  - by intros [=].
Defined.

Lemma upload_stores_the_part_witness :
  ∃ w',
    CreateObjectPart Scenario.fs "b" "o" Scenario.uid "" 1 5 "hello" None 2
      Scenario.started
    = (Ret (Scenario.etag "hello"), w')
    ∧ files w' !! partPathOf (objectPathOf Scenario.fs "b" "o") 1 = Some "hello"
    ∧ files w' !! journalPathOf (objectPathOf Scenario.fs "b" "o")
      = Some (Toy.Encode (mkSession Scenario.uid 1 0 [])
              +:+ Toy.Encode
                    (appendPart (mkSession Scenario.uid 1 0 [])
                       (mkPart 1 2 (Scenario.etag "hello") 5)))
    ∧ (∀ q, q ≠ partPathOf (objectPathOf Scenario.fs "b" "o") 1 →
            q ≠ journalPathOf (objectPathOf Scenario.fs "b" "o") →
            files w' !! q = files Scenario.started !! q)
    ∧ ActiveSession w'
      = <["o" := appendPart (mkSession Scenario.uid 1 0 [])
                   (mkPart 1 2 (Scenario.etag "hello") 5)]>
          (ActiveSession Scenario.started)
    ∧ mkPart 1 2 (Scenario.etag "hello") 5
      ∈ Parts (appendPart (mkSession Scenario.uid 1 0 [])
                 (mkPart 1 2 (Scenario.etag "hello") 5))
    ∧ TotalParts (appendPart (mkSession Scenario.uid 1 0 [])
                    (mkPart 1 2 (Scenario.etag "hello") 5)) = 0 + 1
    ∧ savedSession w' = savedSession Scenario.started
    ∧ temps w' !! partPathOf (objectPathOf Scenario.fs "b" "o") 1 = None.
Proof.
  apply (upload_stores_the_part (H := toy_platform) Scenario.fs "b" "o"
           Scenario.uid "" 1 5 "hello" None 2 Scenario.started
           (Toy.Encode (mkSession Scenario.uid 1 0 []))
           (mkSession Scenario.uid 1 0 [])).
  - exact scenario_admitted.
  - vm_compute. by intros [=].
  - left. reflexivity.
  - exact I.
  - vm_compute. reflexivity.
  - vm_compute. reflexivity.
Defined.

(** * Commits that fail, and commits that go through *)

Section CommitPaths.
Context `{Platform}.

(** The tests of [CompleteMultipartUpload] that come before the manifest
    is read. *)
Definition commit_admitted (fs : Filesystem) (bucket object uploadID : string)
    (w : World) : Prop :=
  IsValidBucket bucket = true
  ∧ IsValidObjectName object = true
  ∧ isValidUploadID object uploadID w = true
  ∧ os.exists_at (bucketPathOf fs bucket) w = true.

(** A manifest entry that [concatParts] accepts on the disk [f]: the part
    file is there and the entry's ETag, without its quotes, is the hex of
    the MD5 of the file. *)
Definition part_ok (f : gmap string string) (objectPath : string)
    (p : CompletePart) : Prop :=
  ∃ obj,
    f !! partPathOf objectPath (cPartNumber p) = Some obj
    ∧ hex.DecodeString (Str.Trim1 Str.quote (cETag p)) = Some (md5_Sum obj).

Lemma concatParts_ok parts objectPath target hashed w :
  Forall (part_ok (files w) objectPath) parts →
  ∃ w1 contents,
    concatParts parts objectPath target hashed w
    = (Ret (None, hashed +:+ joined contents), w1).
Proof.
  revert hashed w. induction parts as [|part rest IH]; intros hashed w Hall; simpl.
  - exists w, []. unfold_M. simpl. by rewrite StrFacts.app_nil_r.
  - apply Forall_cons in Hall as [(obj & Hobj & Hdec) Hrest].
    unfold_M. simpl. rewrite Hobj, Hdec, String.eqb_refl. simpl.
    edestruct (IH (hashed +:+ obj)) as (w1 & contents & ->); [exact Hrest|].
    exists w1, (obj :: contents). simpl. by rewrite StrFacts.app_assoc.
Qed.

Lemma concatParts_fails parts objectPath target hashed w :
  ¬ Forall (part_ok (files w) objectPath) parts →
  ∃ perr hashed' w1,
    concatParts parts objectPath target hashed w = (Ret (Some perr, hashed'), w1).
Proof.
  revert hashed w. induction parts as [|part rest IH]; intros hashed w Hall; simpl.
  - destruct Hall. constructor.
  - unfold_M. simpl.
    destruct (files w !! partPathOf objectPath (cPartNumber part)) as [obj|] eqn:Hobj;
      [|by eexists _, _, _].
    destruct (hex.DecodeString (Str.Trim1 Str.quote (cETag part))) as [sum|] eqn:Hdec;
      [|by eexists _, _, _].
    destruct (String.eqb_spec sum (md5_Sum obj)) as [->|Hne]; simpl;
      [|by eexists _, _, _].
    apply IH. simpl. intros Hrest. apply Hall. constructor; [|done].
    by exists obj.
Qed.

(** With every part file in place and no part number listed twice, the
    removal loop goes through. *)
Lemma removeParts_ok parts objectPath w :
  NoDup (cPartNumber <$> parts) →
  (∀ p, p ∈ parts → is_Some (files w !! partPathOf objectPath (cPartNumber p))) →
  ∃ w1, removeParts parts objectPath w = (Ret None, w1).
Proof.
  revert w. induction parts as [|part rest IH]; intros w Hnd Hall; simpl.
  - by exists w.
  - apply NoDup_cons in Hnd as [Hfresh Hnd].
    unfold_M. unfold os.Remove at 1.
    destruct (Hall part) as [obj ->]; [by left|]. simpl.
    apply IH; [done|]. intros p Hp. simpl.
    rewrite lookup_delete_ne; [apply Hall; by right|].
    intros E. apply partPath_inj in E. apply Hfresh.
    apply list_elem_of_fmap. by exists p.
Qed.

(** X12: A commit that fails has published nothing: the file at the object
    path is what it was.  Either the files on disk and the session map are
    untouched, so that the commit can be tried again, or the call failed
    while it removed the part files and the journal; the session of the
    object is then forgotten, and some of its files are gone. *)
Theorem failed_commit_publishes_nothing fs bucket object uploadID data signature
    now w e w' :
  CompleteMultipartUpload fs bucket object uploadID data signature now w
    = (Fail e, w') →
  files w' !! objectPathOf fs bucket object
    = files w !! objectPathOf fs bucket object
  ∧ ((files w' = files w ∧ ActiveSession w' = ActiveSession w)
     ∨ ((∃ q, e = probe_NewError (PathError "remove" q))
        ∧ ActiveSession w' = delete object (ActiveSession w)
        ∧ (∀ q, files w' !! q = None ∨ files w' !! q = files w !! q))).
Proof.
  unfold CompleteMultipartUpload. unfold_M. simpl.
  intros Hrun.
  repeat (case_match; simpl in *; simplify_eq).
  all: fold (objectPathOf fs bucket object) in *.
  all: repeat match goal with
         | Hc : concatParts _ _ _ _ _ = _ |- _ =>
             apply concatParts_spec in Hc as (Hcf & _ & Hca & _ & _ & _ & _)
         end; simpl in *.
  all: try (split; [congruence|left; split; congruence]).
  all: rewrite ?lookup_insert_eq in *; simplify_eq.
  all: match goal with
       | Hc : removeParts _ _ _ = _ |- _ =>
           pose proof (removeParts_frame _ _ _ _ _ Hc) as Hframe;
           apply removeParts_spec in Hc
             as (_ & _ & Hra & _ & Hrf & rerr & Hrr & Hre & _)
       end; simpl in *; simplify_eq.
  all: repeat match goal with
         | Hc : os.Remove _ _ = _ |- _ =>
             unfold os.Remove in Hc; case_match; simplify_eq
         end; simpl in *.
  all: split;
    [ rewrite Hframe, Hcf; [done|]; intros p _; apply not_eq_sym, partPath_ne
    | right; split; [|split] ].
  all: try (by apply Hre).
  all: try by eexists.
  all: try (rewrite Hra; simpl; by rewrite Hca).
  all: try (destruct (Hre _ eq_refl) as [q ->]; by exists q).
  all: intros q; destruct (Hrf q) as [E|E]; rewrite E, ?Hcf; by auto.
Qed.

(** X11: A commit that is admitted, passes the verifier and carries a manifest
    in ascending order fails when an entry of the manifest is not
    [part_ok]: a part file is missing, or the entry's ETag is not the MD5
    of the file.  The error is the traced error of [concatParts], the temp
    file of the object is purged, and the files on disk and the session
    map are as before. *)
Theorem commit_needs_every_part fs bucket object uploadID data signature now w
    parts :
  commit_admitted fs bucket object uploadID w →
  signature_passes signature data →
  xml_Unmarshal data = Some parts →
  sort.IsSorted completedParts_Less (cPart parts) = true →
  ¬ Forall (part_ok (files w) (objectPathOf fs bucket object)) (cPart parts) →
  ∃ perr w',
    CompleteMultipartUpload fs bucket object uploadID data signature now w
    = (Fail (probe_Trace perr), w')
    ∧ files w' = files w
    ∧ ActiveSession w' = ActiveSession w
    ∧ temps w' !! objectPathOf fs bucket object = None.
Proof.
  intros (Hb & Ho & Hu & He) Hsig Hxml Hsorted Hbad.
  unfold CompleteMultipartUpload. unfold_M. simpl.
  rewrite Hb, Ho, Hu. simpl. rewrite He. simpl.
  assert (match signature with
          | Some sig =>
              match DoesSignatureMatch sig (hex.EncodeToString (sha256_Sum data)) with
              | SigErr perr => Some None
              | SigOk false => Some (Some (probe_NewError SignatureDoesNotMatch))
              | SigOk true => None
              end
          | None => None
          end = None) as ->.
  { destruct signature as [sig|]; [|done]. simpl in Hsig. by rewrite Hsig. }
  rewrite Hxml, Hsorted. simpl.
  fold (objectPathOf fs bucket object).
  match goal with
  | |- context [concatParts ?ps ?op ?t ?h ?w0] =>
      destruct (concatParts_fails ps op t h w0 Hbad) as (perr & h' & w1 & Hc);
      rewrite Hc;
      apply concatParts_spec in Hc as (Hcf & _ & Hca & _ & _ & _ & _)
  end.
  simpl in *. eexists _, _. split; [reflexivity|]. simpl.
  repeat split; try done. apply lookup_delete_eq.
Qed.


(** What a successful [CompleteMultipartUpload] tells about the names. *)
Lemma CompleteMultipartUpload_Ret_names fs bucket object uploadID data signature
    now w meta w' :
  CompleteMultipartUpload fs bucket object uploadID data signature now w
    = (Ret meta, w') →
  IsValidBucket bucket = true ∧ IsValidObjectName object = true.
Proof.
  unfold CompleteMultipartUpload. unfold_M. simpl.
  destruct (IsValidBucket bucket); simpl; [|done].
  by destruct (IsValidObjectName object).
Qed.

(** X13: After a commit that passed its signature check and returned no
    error, no upload ID is valid for the object: a second commit, an abort
    or a listing of the parts fails with [InvalidUploadID] and changes
    nothing. *)
Theorem commit_ends_the_session fs bucket object uploadID data signature now w
    meta w' :
  signature_passes signature data →
  CompleteMultipartUpload fs bucket object uploadID data signature now w
    = (Ret meta, w') →
  ∀ id data' signature' now' resources,
    rUploadID resources = id →
    isValidUploadID object id w' = false
    ∧ CompleteMultipartUpload fs bucket object id data' signature' now' w'
      = (Fail (probe_NewError (InvalidUploadID id)), w')
    ∧ AbortMultipartUpload fs bucket object id w'
      = (Fail (probe_NewError (InvalidUploadID id)), w')
    ∧ ListObjectParts fs bucket object resources w'
      = (Fail (probe_NewError (InvalidUploadID id)), w').
Proof.
  intros Hsig Hrun id data' signature' now' resources <-.
  destruct (CompleteMultipartUpload_Ret_names _ _ _ _ _ _ _ _ _ _ Hrun) as [Hb Ho].
  apply CompleteMultipartUpload_Ret in Hrun
    as [[Hv _]|(parts & contents & _ & _ & _ & _ & _ & _ & Ha & _)];
    [by destruct (signature_passes_not_fails _ _ Hsig)|].
  assert (isValidUploadID object (rUploadID resources) w' = false) as Hid.
  { unfold isValidUploadID. by rewrite Ha, lookup_delete_eq. }
  split; [done|].
  unfold CompleteMultipartUpload, AbortMultipartUpload, ListObjectParts.
  unfold_M. simpl. by rewrite Hb, Ho, Hid.
Qed.

End CommitPaths.

(** The world after the commit of [manifest_twice] failed. *)
Definition half_committed : World :=
  Scenario.after
    (CompleteMultipartUpload Scenario.fs "b" "o" Scenario.uid manifest_twice None 4)
    Scenario.one_part.

Lemma failed_commit_publishes_nothing_witness :
  files half_committed !! objectPathOf Scenario.fs "b" "o"
    = files Scenario.one_part !! objectPathOf Scenario.fs "b" "o"
  ∧ ((files half_committed = files Scenario.one_part
      ∧ ActiveSession half_committed = ActiveSession Scenario.one_part)
     ∨ ((∃ q, probe_NewError
                (PathError "remove"
                         (partPathOf (objectPathOf Scenario.fs "b" "o") 1))
              = probe_NewError (PathError "remove" q))
        ∧ ActiveSession half_committed = delete "o" (ActiveSession Scenario.one_part)
        ∧ (∀ q, files half_committed !! q = None
                ∨ files half_committed !! q = files Scenario.one_part !! q))).
Proof.
  apply (failed_commit_publishes_nothing (H := toy_platform) Scenario.fs "b" "o"
           Scenario.uid manifest_twice None 4 Scenario.one_part).
  vm_compute. reflexivity.
Defined.

Lemma commit_needs_every_part_witness :
  ∃ perr w',
    CompleteMultipartUpload Scenario.fs "b" "o" Scenario.uid manifest_both None 4
      Scenario.started
    = (Fail (probe_Trace perr), w')
    ∧ files w' = files Scenario.started
    ∧ ActiveSession w' = ActiveSession Scenario.started
    ∧ temps w' !! objectPathOf Scenario.fs "b" "o" = None.
Proof.
  apply (commit_needs_every_part (H := toy_platform) Scenario.fs "b" "o"
           Scenario.uid manifest_both None 4 Scenario.started
           (mkManifest [mkCompletePart 1 (Scenario.etag "hello");
                        mkCompletePart 2 (Scenario.etag "world")])).
  - repeat split; by vm_compute.
  - exact I.
  - vm_compute. reflexivity.
  - reflexivity.
  - intros Hall. apply Forall_cons in Hall as [(obj & Hobj & _) _].
    vm_compute in Hobj. discriminate.
Defined.


(** A verifier that accepts every payload. *)
Definition accepting_verifier : Signature := mkSignature (λ _, SigOk true).

Lemma commit_ends_the_session_witness :
  isValidUploadID "o" Scenario.uid committed = false
  ∧ CompleteMultipartUpload Scenario.fs "b" "o" Scenario.uid manifest_both None 5
      committed
    = (Fail (probe_NewError (InvalidUploadID Scenario.uid)), committed)
  ∧ AbortMultipartUpload Scenario.fs "b" "o" Scenario.uid committed
    = (Fail (probe_NewError (InvalidUploadID Scenario.uid)), committed)
  ∧ ListObjectParts Scenario.fs "b" "o" list_all committed
    = (Fail (probe_NewError (InvalidUploadID Scenario.uid)), committed).
Proof.
  refine (commit_ends_the_session (H := toy_platform) Scenario.fs "b" "o"
            Scenario.uid manifest_both (Some accepting_verifier) 4
            Scenario.two_parts committed_meta committed _ _
            Scenario.uid manifest_both None 5 list_all _).
  - reflexivity.
  - vm_compute. reflexivity.
  - reflexivity.
Defined.

(** * What a listing of the sessions holds *)

(** The test the loop of [ListMultipartUploads] applies to an entry of the
    session map before it gathers it: the prefix, and the markers in the
    three cases of the [switch]. *)
Definition gathered (resources : BucketMultipartResourcesMetadata)
    (entry : string * MultipartSession) : bool :=
  Str.HasPrefix entry.1 (Prefix resources)
  && (if negb (String.eqb (KeyMarker resources) "")
         && String.eqb (UploadIDMarker resources) "" then
        Str.gtb entry.1 (KeyMarker resources)
      else if negb (String.eqb (KeyMarker resources) "")
              && negb (String.eqb (UploadIDMarker resources) "") then
        Str.gtb (UploadID entry.2) (UploadIDMarker resources)
        && Str.geb entry.1 (KeyMarker resources)
      else true).

(** The uploads a run of the loop ends with, before they are sorted. *)
Definition loop_uploads
    (r : BucketMultipartResourcesMetadata + list UploadMetadata)
    : list UploadMetadata :=
  match r with
  | inl truncated => Upload truncated
  | inr uploads => sort.Sort byUploadMetadataKey_Less uploads
  end.

(** The loop gathers the entries that pass [gathered], in the order it
    visits them, and stops gathering at [MaxUploads + 1] of them. *)
Lemma listUploadsLoop_gathers resources entries uploads :
  (length uploads ≤ Z.to_nat (MaxUploads resources + 1))%nat →
  loop_uploads (listUploadsLoop resources entries uploads)
  = sort.Sort byUploadMetadataKey_Less
      (uploads
       ++ (uploadOf
             <$> take (Z.to_nat (MaxUploads resources + 1) - length uploads)
                      (filter (λ e, gathered resources e = true) entries))).
Proof.
  revert uploads.
  induction entries as [|[object session] rest IH]; intros uploads Hlen.
  - by rewrite filter_nil, take_nil, fmap_nil, app_nil_r.
  - assert (gathered resources (object, session)
            = Str.HasPrefix object (Prefix resources)
              && (if negb (String.eqb (KeyMarker resources) "")
                     && String.eqb (UploadIDMarker resources) "" then
                    Str.gtb object (KeyMarker resources)
                  else if negb (String.eqb (KeyMarker resources) "")
                          && negb (String.eqb (UploadIDMarker resources) "") then
                    Str.gtb (UploadID session) (UploadIDMarker resources)
                    && Str.geb object (KeyMarker resources)
                  else true)) as Hg by reflexivity.
    cbn [listUploadsLoop].
    destruct (Str.HasPrefix object (Prefix resources)) eqn:Hprefix;
      [|rewrite filter_cons_False by (by rewrite Hg); by apply IH].
    destruct (Z.gtb_spec (Z.of_nat (length uploads)) (MaxUploads resources))
      as [Hfull|Hroom].
    { cbn [loop_uploads Upload].
      replace (Z.to_nat (MaxUploads resources + 1) - length uploads)%nat
        with 0%nat by lia.
      by rewrite take_0, fmap_nil, app_nil_r. }
    assert (loop_uploads
              (listUploadsLoop resources rest (uploads ++ [newUpload object session]))
            = sort.Sort byUploadMetadataKey_Less
                (uploads
                 ++ (uploadOf
                       <$> take (Z.to_nat (MaxUploads resources + 1) - length uploads)
                                ((object, session)
                                 :: filter (λ e, gathered resources e = true) rest))))
      as Hyes.
    { rewrite IH by (rewrite length_app; simpl; lia).
      replace (Z.to_nat (MaxUploads resources + 1) - length uploads)%nat
        with (S (Z.to_nat (MaxUploads resources + 1)
                 - length (uploads ++ [newUpload object session])))
        by (rewrite length_app; simpl; lia).
      rewrite firstn_cons, fmap_cons, <- app_assoc. reflexivity. }
    simpl in Hg.
    destruct (negb (String.eqb (KeyMarker resources) "")
              && String.eqb (UploadIDMarker resources) "");
      [|destruct (negb (String.eqb (KeyMarker resources) "")
                  && negb (String.eqb (UploadIDMarker resources) ""))].
    + destruct (Str.gtb object (KeyMarker resources)).
      * by rewrite filter_cons_True.
      * rewrite filter_cons_False by (by rewrite Hg). by apply IH.
    + destruct (Str.gtb (UploadID session) (UploadIDMarker resources)
                && Str.geb object (KeyMarker resources)).
      * by rewrite filter_cons_True.
      * rewrite filter_cons_False by (by rewrite Hg). by apply IH.
    + by rewrite filter_cons_True.
Qed.

Section ListUploadsMore.
Context `{Platform}.

(** X16: For a bucket that exists, [ListMultipartUploads] succeeds and changes
    nothing.  What it lists are the first [MaxUploads + 1] entries, in the
    order the loop visits the session map, that have the prefix and pass
    the markers, sorted by key; so every upload it lists is a session of
    the map that has the prefix and passes the markers, and there are at
    most [MaxUploads + 1] of them. *)
Theorem listing_is_the_first_gathered fs bucket resources order w :
  IsValidBucket bucket = true →
  os.exists_at (bucketPathOf fs bucket) w = true →
  ∃ listed,
    ListMultipartUploads fs bucket resources order w = (Ret listed, w)
    ∧ Upload listed
      = sort.Sort byUploadMetadataKey_Less
          (uploadOf <$> take (Z.to_nat (MaxUploads resources + 1))
                             (filter (λ e, gathered resources e = true) order))
    ∧ (∀ u, u ∈ Upload listed →
            ∃ entry, entry ∈ order ∧ u = uploadOf entry
                     ∧ gathered resources entry = true)
    ∧ Z.of_nat (length (Upload listed)) ≤ Z.max 0 (MaxUploads resources + 1)
    ∧ Prefix listed = Prefix resources
    ∧ KeyMarker listed = KeyMarker resources
    ∧ MaxUploads listed = MaxUploads resources.
Proof.
  intros Hb He.
  pose proof (listUploadsLoop_gathers resources order []) as Hloop.
  simpl in Hloop. rewrite Nat.sub_0_r in Hloop.
  specialize (Hloop ltac:(lia)).
  assert (∃ listed,
            ListMultipartUploads fs bucket resources order w = (Ret listed, w)
            ∧ Upload listed = loop_uploads (listUploadsLoop resources order [])
            ∧ Prefix listed = Prefix resources
            ∧ KeyMarker listed = KeyMarker resources
            ∧ MaxUploads listed = MaxUploads resources)
    as (listed & Hrun & Hup & Hfields).
  { unfold ListMultipartUploads. unfold_M. rewrite Hb. simpl. rewrite He. simpl.
    destruct (listUploadsLoop resources order []) as [t|us] eqn:Hl.
    - eexists. split; [done|]. split; [done|].
      clear Hloop. revert Hl. generalize (@nil UploadMetadata).
      induction order as [|[object session] rest IH]; intros us; simpl; [done|].
      repeat (case_match; try done); try apply IH.
      by intros [= <-].
    - by eexists. }
  exists listed. split; [done|]. rewrite Hup, Hloop.
  split; [done|]. split; [|split; [|done]].
  - intros u Hu. unfold sort.Sort in Hu. rewrite merge_sort_Permutation in Hu.
    apply list_elem_of_fmap in Hu as (entry & -> & Hin).
    apply elem_of_take in Hin as (i & Hin & _).
    apply list_elem_of_lookup_2, list_elem_of_filter in Hin as [Hg Hin].
    by exists entry.
  - unfold sort.Sort.
    rewrite merge_sort_Permutation, length_fmap, list.length_take. lia.
Qed.

End ListUploadsMore.

(** A listing of the five sessions under keys from ["c"] on. *)
Definition from_c : BucketMultipartResourcesMetadata :=
  mkBucketResources "b" "" "" "" 1 false [] "".

Lemma listing_is_the_first_gathered_witness :
  ∃ listed,
    ListMultipartUploads Scenario.fs "b" from_c Listing.in_key_order
      Listing.five_sessions
    = (Ret listed, Listing.five_sessions)
    ∧ Upload listed
      = sort.Sort byUploadMetadataKey_Less
          (uploadOf <$> take (Z.to_nat (MaxUploads from_c + 1))
                             (filter (λ e, gathered from_c e = true)
                                Listing.in_key_order))
    ∧ (∀ u, u ∈ Upload listed →
            ∃ entry, entry ∈ Listing.in_key_order ∧ u = uploadOf entry
                     ∧ gathered from_c entry = true)
    ∧ Z.of_nat (length (Upload listed)) ≤ Z.max 0 (MaxUploads from_c + 1)
    ∧ Prefix listed = Prefix from_c
    ∧ KeyMarker listed = KeyMarker from_c
    ∧ MaxUploads listed = MaxUploads from_c.
Proof.
  apply (listing_is_the_first_gathered (H := toy_platform)).
  - reflexivity.
  - vm_compute. reflexivity.
Defined.

(** The listing of the example, evaluated: with the key marker ["b"] and
    room for one upload, the uploads are those of the keys c and d. *)
Lemma five_sessions_from_c :
  ∃ listed,
    ListMultipartUploads Scenario.fs "b" from_c Listing.in_key_order
      Listing.five_sessions
    = (Ret listed, Listing.five_sessions)
    ∧ uObject <$> Upload listed = ["c"; "d"]
    ∧ NextKeyMarker listed = "e".
Proof. eexists. split; [by vm_compute|]. by vm_compute. Qed.

(** * What a listing of the parts holds *)

(** [count] rounds of the loop of [ListObjectParts] from the part at
    position [k] of the descriptor (counted from 0), with [acc] gathered so
    far: the loop gathers parts in the order of the descriptor until it
    holds [MaxParts + 1] of them, and is cut short when a round is left at
    that point. *)
Lemma listPartsLoop_page count k session resources acc :
  let room := Z.to_nat (MaxParts resources + 1) in
  (length acc ≤ room)%nat →
  (count ≠ 0%nat → (k + count ≤ length (Parts session))%nat) →
  listPartsLoop count (Z.of_nat k + 1) session resources acc
  = Some (if decide (room - length acc < count)%nat then
            inl (mkObjectResources
                   (rBucket resources) (rObject resources) (rUploadID resources)
                   (PartNumberMarker resources)
                   (Z.of_nat (k + (room - length acc)) + 1)
                   (MaxParts resources) true
                   (sort.Sort partNumber_Less
                      (acc ++ take (room - length acc) (drop k (Parts session)))))
          else inr (acc ++ take count (drop k (Parts session)))).
Proof.
  intros room. revert k acc.
  induction count as [|count IH]; intros k acc Hacc Hbound.
  - cbn [listPartsLoop]. rewrite decide_False by lia.
    by rewrite take_0, app_nil_r.
  - specialize (Hbound ltac:(done)). cbn [listPartsLoop].
    destruct (Z.gtb_spec (Z.of_nat (length acc)) (MaxParts resources))
      as [Hfull|Hroom].
    + rewrite decide_True by lia.
      replace (room - length acc)%nat with 0%nat by lia.
      by rewrite take_0, app_nil_r, Nat.add_0_r.
    + unfold index. destruct (Z.ltb_spec (Z.of_nat k + 1 - 1) 0) as [?|_]; [lia|].
      replace (Z.to_nat (Z.of_nat k + 1 - 1)) with k by lia.
      destruct (lookup_lt_is_Some_2 (Parts session) k) as [p Hp]; [lia|].
      rewrite Hp.
      replace (Z.of_nat k + 1 + 1) with (Z.of_nat (S k) + 1) by lia.
      rewrite IH by (rewrite ?length_app; simpl; lia).
      rewrite (drop_S _ _ _ Hp), length_app. simpl.
      replace (room - length acc)%nat with (S (room - (length acc + 1))) by lia.
      rewrite !firstn_cons, <- !app_assoc. simpl.
      destruct (decide (room - (length acc + 1) < count)%nat).
      * rewrite decide_True by lia. do 3 f_equal. lia.
      * by rewrite decide_False by lia.
Qed.

Section ListPartsMore.
Context `{Platform}.

(** X17: [ListObjectParts] on a journal whose first document [d] has as many
    parts as it says, with a marker that is not negative: the call
    succeeds and changes nothing.  It lists, sorted by part number, the
    parts of [d] from the position of the marker on (position 1 for the
    markers 0 and 1), up to [MaxParts + 1] of them.  When more are left,
    the listing is marked truncated and the next marker is the position
    after the last part listed; otherwise these two fields are as in the
    request. *)
Theorem listed_parts_are_a_page fs bucket object resources w journal d :
  IsValidBucket bucket = true →
  IsValidObjectName object = true →
  isValidUploadID object (rUploadID resources) w = true →
  os.exists_at (bucketPathOf fs bucket) w = true →
  files w !! journalPathOf (objectPathOf fs bucket object) = Some journal →
  json_Decode journal = Some d →
  counts_its_parts d →
  0 ≤ PartNumberMarker resources →
  let first := Z.to_nat (PartNumberMarker resources - 1) in
  let room := Z.to_nat (MaxParts resources + 1) in
  let rest := drop first (Parts d) in
  ∃ listed,
    ListObjectParts fs bucket object resources w = (Ret listed, w)
    ∧ Part listed = sort.Sort partNumber_Less (take room rest)
    ∧ if decide (room < length rest)%nat then
        rIsTruncated listed = true
        ∧ NextPartNumberMarker listed = Z.of_nat (first + room) + 1
      else
        rIsTruncated listed = rIsTruncated resources
        ∧ NextPartNumberMarker listed = NextPartNumberMarker resources.
Proof.
  intros Hb Ho Hu He Hj Hd Hcount Hmarker first room rest.
  unfold counts_its_parts in Hcount.
  unfold ListObjectParts. unfold_M. simpl.
  rewrite Hb, Ho, Hu. simpl. rewrite He. simpl.
  fold (objectPathOf fs bucket object). rewrite Hj, Hd.
  set (start := if PartNumberMarker resources =? 0 then 1
                else PartNumberMarker resources).
  assert (start = Z.of_nat first + 1) as ->.
  { unfold start, first. destruct (Z.eqb_spec (PartNumberMarker resources) 0); lia. }
  assert (Z.to_nat (TotalParts d - (Z.of_nat first + 1) + 1) = length rest) as ->.
  { unfold rest. rewrite length_drop. lia. }
  rewrite listPartsLoop_page;
    [|simpl; lia|unfold rest; rewrite length_drop; lia].
  cbn [MaxParts length]. fold room. rewrite Nat.sub_0_r. fold rest.
  destruct (decide (room < length rest)%nat) as [Hmore|Hall].
  - eexists. split; [reflexivity|]. simpl. by rewrite Nat.add_comm.
  - eexists. split; [reflexivity|]. simpl.
    by rewrite (take_ge rest room), firstn_all by lia.
Qed.

End ListPartsMore.

Module Paging.

Definition part (n : Z) : PartMetadata := mkPart n n "tag" 1.

(** A disk whose journal for ["o"] starts with a descriptor of three
    parts. *)
Definition three_parts : World :=
  set_files
    (insert (journalPathOf (objectPathOf Scenario.fs "b" "o"))
       (Toy.Encode (mkSession Scenario.uid 1 3 [part 1; part 2; part 3])))
    Scenario.started.

(** A request for the parts from the second on, with [MaxParts = 0]. *)
Definition second_page : ObjectResourcesMetadata :=
  mkObjectResources "" "" Scenario.uid 2 0 0 false [].

End Paging.

Lemma listed_parts_are_a_page_witness :
  ∃ listed,
    ListObjectParts Scenario.fs "b" "o" Paging.second_page Paging.three_parts
    = (Ret listed, Paging.three_parts)
    ∧ Part listed = sort.Sort partNumber_Less [Paging.part 2]
    ∧ rIsTruncated listed = true
    ∧ NextPartNumberMarker listed = 3.
Proof.
  apply (listed_parts_are_a_page (H := toy_platform) Scenario.fs "b" "o"
           Paging.second_page Paging.three_parts
           (Toy.Encode (mkSession Scenario.uid 1 3
                          [Paging.part 1; Paging.part 2; Paging.part 3]))
           (mkSession Scenario.uid 1 3
              [Paging.part 1; Paging.part 2; Paging.part 3])).
  - reflexivity.
  - reflexivity.
  - vm_compute. reflexivity.
  - vm_compute. reflexivity.
  - vm_compute. reflexivity.
  - vm_compute. reflexivity.
  - reflexivity.
  - simpl. lia.
Defined.

(** * Sessions do not disturb each other *)

Section Isolation.
Context `{Platform}.

Lemma NewMultipartUpload_others fs bucket object rnd now w object' :
  object' ≠ object →
  ActiveSession (NewMultipartUpload fs bucket object rnd now w).2 !! object'
  = ActiveSession w !! object'.
Proof.
  intros Hne. unfold NewMultipartUpload. unfold_M. simpl.
  repeat (case_match; simpl in *; simplify_eq); try done.
  all: simpl; by rewrite ?lookup_insert_ne by done.
Qed.

Lemma CreateObjectPart_others fs bucket object uploadID expectedMD5Sum partID size
    data signature now w object' :
  object' ≠ object →
  ActiveSession
    (CreateObjectPart fs bucket object uploadID expectedMD5Sum partID size data
       signature now w).2 !! object'
  = ActiveSession w !! object'.
Proof.
  intros Hne. unfold CreateObjectPart, io_CopyN. unfold_M. simpl.
  repeat (case_match; simpl in *; simplify_eq); try done.
  all: simpl; by rewrite ?lookup_insert_ne by done.
Qed.

Lemma CompleteMultipartUpload_others fs bucket object uploadID data signature now
    w object' :
  object' ≠ object →
  ActiveSession
    (CompleteMultipartUpload fs bucket object uploadID data signature now w).2
    !! object'
  = ActiveSession w !! object'.
Proof.
  intros Hne. unfold CompleteMultipartUpload. unfold_M. simpl.
  repeat (case_match; simpl in *; simplify_eq); try done.
  all: repeat match goal with
         | Hc : concatParts _ _ _ _ _ = _ |- _ =>
             apply concatParts_spec in Hc as (_ & _ & Hca & _ & _ & _ & _)
         | Hc : removeParts _ _ _ = _ |- _ =>
             apply removeParts_spec in Hc as (_ & _ & Hra & _ & _ & _)
         | Hc : os.Remove _ _ = _ |- _ =>
             unfold os.Remove in Hc; case_match; simplify_eq
         end; simpl in *.
  all: rewrite ?Hra; simpl; rewrite ?lookup_delete_ne by done; by rewrite ?Hca.
Qed.

Lemma AbortMultipartUpload_others fs bucket object uploadID w object' :
  object' ≠ object →
  ActiveSession (AbortMultipartUpload fs bucket object uploadID w).2 !! object'
  = ActiveSession w !! object'.
Proof.
  intros Hne. unfold AbortMultipartUpload. unfold_M. simpl.
  repeat (case_match; simpl in *; simplify_eq); try done.
  all: match goal with
       | Hc : removeAllParts ?ps ?op ?w = _ |- _ =>
           destruct (removeAllParts_files ps op w) as (w1 & Hr & Ha & _);
           rewrite Hr in Hc; simplify_eq
       end.
  simpl. by rewrite lookup_delete_ne, Ha.
Qed.

(** X4: Whatever a call does for one object, and however it ends, the entry
    of every other object in the session map stays as it is: the four
    calls that write the map write the entry of their own object only. *)
Theorem other_sessions_are_untouched fs bucket object object' w
    rnd now uploadID expectedMD5Sum partID size data signature :
  object' ≠ object →
  ActiveSession (NewMultipartUpload fs bucket object rnd now w).2 !! object'
    = ActiveSession w !! object'
  ∧ ActiveSession
      (CreateObjectPart fs bucket object uploadID expectedMD5Sum partID size data
         signature now w).2 !! object'
    = ActiveSession w !! object'
  ∧ ActiveSession
      (CompleteMultipartUpload fs bucket object uploadID data signature now w).2
      !! object'
    = ActiveSession w !! object'
  ∧ ActiveSession (AbortMultipartUpload fs bucket object uploadID w).2 !! object'
    = ActiveSession w !! object'.
Proof.
  intros Hne. split; [|split; [|split]].
  - by apply NewMultipartUpload_others.
  - by apply CreateObjectPart_others.
  - by apply CompleteMultipartUpload_others.
  - by apply AbortMultipartUpload_others.
Qed.

(** X3: A new upload for an object replaces the session the object had: the
    ID that is returned is afterwards the only valid one, so an upload
    begun earlier for the same object can no longer be continued under its
    old ID.  The new session has no part, the map is persisted with it,
    and no file but the journal of the object is written: part files of
    the earlier upload stay where they are. *)
Theorem new_upload_takes_over fs bucket object rnd now w uid w' :
  NewMultipartUpload fs bucket object rnd now w = (Ret uid, w') →
  (∀ id, isValidUploadID object id w' = bool_decide (id = uid))
  ∧ ActiveSession w' !! object = Some (mkSession uid now 0 [])
  ∧ savedSession w' = Some (ActiveSession w')
  ∧ (∀ q, q ≠ journalPathOf (objectPathOf fs bucket object) →
          files w' !! q = files w !! q).
Proof.
  intros Hrun.
  apply NewMultipartUpload_Ret in Hrun
    as (_ & _ & _ & _ & [rest Hf] & Ha & Hs & _).
  split; [|split; [|split]]; try done.
  - intros id. unfold isValidUploadID. rewrite Ha, lookup_insert_eq. simpl.
    destruct (String.eqb_spec id uid) as [->|Hne].
    + by rewrite bool_decide_eq_true_2.
    + by rewrite bool_decide_eq_false_2.
  - by rewrite Ha, lookup_insert_eq.
  - intros q Hq. by rewrite Hf, lookup_insert_ne.
Qed.

End Isolation.

Lemma other_sessions_are_untouched_witness :
  ActiveSession
    (NewMultipartUpload Scenario.fs "b" "c" 3 3 Listing.five_sessions).2 !! "a"
    = ActiveSession Listing.five_sessions !! "a"
  ∧ ActiveSession
      (CreateObjectPart Scenario.fs "b" "c" (Toy.upload_id 3 "b" "c" 3) "" 1 5
         "hello" None 3 Listing.five_sessions).2 !! "a"
    = ActiveSession Listing.five_sessions !! "a"
  ∧ ActiveSession
      (CompleteMultipartUpload Scenario.fs "b" "c" (Toy.upload_id 3 "b" "c" 3)
         "hello" None 3 Listing.five_sessions).2 !! "a"
    = ActiveSession Listing.five_sessions !! "a"
  ∧ ActiveSession
      (AbortMultipartUpload Scenario.fs "b" "c" (Toy.upload_id 3 "b" "c" 3)
         Listing.five_sessions).2 !! "a"
    = ActiveSession Listing.five_sessions !! "a".
Proof.
  apply (other_sessions_are_untouched (H := toy_platform) Scenario.fs "b" "c" "a"
           Listing.five_sessions 3 3 (Toy.upload_id 3 "b" "c" 3) "" 1 5 "hello"
           None).
  done.
Defined.

(** The world after a second upload is begun for ["o"]. *)
Definition begun_again : World :=
  Scenario.after (NewMultipartUpload Scenario.fs "b" "o" 8 9) Scenario.two_parts.

Lemma new_upload_takes_over_witness :
  (∀ id, isValidUploadID "o" id begun_again
         = bool_decide (id = Toy.upload_id 8 "b" "o" 9))
  ∧ ActiveSession begun_again !! "o"
    = Some (mkSession (Toy.upload_id 8 "b" "o" 9) 9 0 [])
  ∧ savedSession begun_again = Some (ActiveSession begun_again)
  ∧ (∀ q, q ≠ journalPathOf (objectPathOf Scenario.fs "b" "o") →
          files begun_again !! q = files Scenario.two_parts !! q).
Proof.
  apply (new_upload_takes_over (H := toy_platform) Scenario.fs "b" "o" 8 9
           Scenario.two_parts).
  vm_compute. reflexivity.
Defined.

(** * The server command and the build script *)

(** ** Go's library, as far as these use it *)

Module Text.

(** [strings.Index(s, sep)] for a separator of one byte [c]: the position
    of the first [c] in [s], or -1. *)
Fixpoint Index1 (s : string) (c : ascii) : Z :=
  match s with
  | EmptyString => -1
  | String a s' =>
      if Ascii.eqb a c then 0
      else let i := Index1 s' c in if i <? 0 then -1 else i + 1
  end.

(** [strings.Replace(s, old, new, -1)] for an [old] of one byte [c]: every
    [c] in [s] becomes [new]. *)
Fixpoint Replace1 (s : string) (c : ascii) (new : string) : string :=
  match s with
  | EmptyString => EmptyString
  | String a s' =>
      (if Ascii.eqb a c then new else String a EmptyString) +:+ Replace1 s' c new
  end.

End Text.

Module strconv.

(** The two causes of a [*strconv.NumError]. *)
Inductive NumError := ErrSyntax | ErrRange.

(** [strconv.ParseInt(s, 10, bitSize)] for [0 <= bitSize <= 64]: an
    optional sign, then at least one decimal digit and nothing else.  A
    value outside the [bitSize]-bit integers gives the nearest bound
    together with [ErrRange]; [bitSize = 0] stands for [int], 64 bits. *)
Definition ParseInt (s : string) (bitSize : Z) : Z * option NumError :=
  match s with
  | EmptyString => (0, Some ErrSyntax)
  | String c rest =>
      let neg := Ascii.eqb c "-" in
      let digits := if Ascii.eqb c "+" then rest else if neg then rest else s in
      match NilZero.uint_of_string digits with
      | None => (0, Some ErrSyntax)
      | Some d =>
          let un := Z.of_uint d in
          let cutoff := 2 ^ ((if bitSize =? 0 then 64 else bitSize) - 1) in
          if negb neg && (cutoff <=? un) then (cutoff - 1, Some ErrRange)
          else if neg && (cutoff <? un) then (- cutoff, Some ErrRange)
          else (if neg then - un else un, None)
      end
  end.

End strconv.

(** ** [parsePercentToInt]

    The result is the value and the error the Go function returns;
    [Some err] stands for [probe.NewError(err)]. *)
Definition parsePercentToInt (s : string) (bitSize : Z)
    : Z * option strconv.NumError :=
  let i := Text.Index1 s "%" in
  if i <? 0 then
    (* no percentage string found try to parse the whole string anyways *)
    match strconv.ParseInt s bitSize with
    | (p, Some err) => (0, Some err)
    | (p, None) => (p, None)
    end
  else
    match strconv.ParseInt (Str.take (Z.to_nat i) s) bitSize with
    | (p, Some err) => (0, Some err)
    | (p, None) => (p, None)
    end.

(** ** Facts about decimal numerals *)

Module NumeralFacts.

(** The characters of a numeral are decimal digits. *)
Definition is_digit (c : ascii) : Prop := uint_of_char c (Some Decimal.Nil) ≠ None.

Lemma uint_digits d : Forall is_digit (Str.to_list (NilEmpty.string_of_uint d)).
Proof. induction d; simpl; constructor; done. Qed.

Lemma itoa_chars n :
  Forall (λ c, is_digit c ∨ c = "-"%char) (Str.to_list (Str.itoa n)).
Proof.
  unfold Str.itoa, NilZero.string_of_int, NilZero.string_of_uint.
  assert (∀ d, Forall (λ c, is_digit c ∨ c = "-"%char)
                 (Str.to_list (NilEmpty.string_of_uint d))) as Hd.
  { intros d. eapply Forall_impl; [apply uint_digits|]. by left. }
  destruct (Z.to_int n) as [d|d].
  - destruct d; try apply Hd. constructor; [by left|constructor].
  - simpl. constructor; [by right|].
    destruct d; try apply Hd. constructor; [by left|constructor].
Qed.

(** The position of the first [c] after a text without [c]. *)
Lemma Index1_app a c b :
  Forall (λ x, x ≠ c) (Str.to_list a) →
  Text.Index1 (a +:+ String c b) c = Z.of_nat (String.length a).
Proof.
  induction a as [|x a IH]; intros Hall; simpl.
  - rewrite ?StrFacts.app_nil_l. simpl. by rewrite Ascii.eqb_refl.
  - simpl in Hall. apply Forall_cons in Hall as [Hx Hall].
    rewrite ?StrFacts.app_cons. simpl.
    destruct (Ascii.eqb_spec x c) as [?|_]; [done|].
    rewrite IH by done.
    destruct (Z.ltb_spec (Z.of_nat (String.length a)) 0); lia.
Qed.

Lemma Index1_absent s c :
  Forall (λ x, x ≠ c) (Str.to_list s) → Text.Index1 s c = -1.
Proof.
  induction s as [|x s IH]; intros Hall; simpl; [done|].
  simpl in Hall. apply Forall_cons in Hall as [Hx Hall].
  destruct (Ascii.eqb_spec x c) as [?|_]; [done|].
  by rewrite IH.
Qed.

Lemma itoa_no_percent n : Forall (λ x, x ≠ "%"%char) (Str.to_list (Str.itoa n)).
Proof.
  eapply Forall_impl; [apply itoa_chars|].
  intros c [Hc|Hc] E; subst; [by apply Hc | done].
Qed.

(** [ParseInt] reads back what [FormatInt] writes, within the range of the
    bit size. *)
Lemma ParseInt_itoa n bitSize :
  1 ≤ bitSize ≤ 64 →
  strconv.ParseInt (Str.itoa n) bitSize
  = if 2 ^ (bitSize - 1) <=? n then (2 ^ (bitSize - 1) - 1, Some strconv.ErrRange)
    else if n <? - 2 ^ (bitSize - 1) then (- 2 ^ (bitSize - 1), Some strconv.ErrRange)
    else (n, None).
Proof.
  intros Hbits.
  assert (0 < 2 ^ (bitSize - 1)) as Hpow by (apply Z.pow_pos_nonneg; lia).
  unfold strconv.ParseInt.
  destruct (Z.eqb_spec bitSize 0) as [?|_]; [lia|].
  unfold Str.itoa. destruct n as [|p|p]; simpl Z.to_int.
  - simpl. change (Z.of_uint (Decimal.D0 Decimal.Nil)) with 0.
    destruct (Z.leb_spec (2 ^ (bitSize - 1)) 0); [lia|].
    destruct (Z.ltb_spec 0 (- 2 ^ (bitSize - 1))); [lia|]. done.
  - pose proof (DecimalPos.Unsigned.to_uint_nonnil p) as Hnn.
    pose proof (NilZero.usu _ Hnn) as Husu.
    pose proof (uint_digits (Pos.to_uint p)) as Hdig.
    unfold NilZero.string_of_int.
    assert (NilZero.string_of_uint (Pos.to_uint p)
            = NilEmpty.string_of_uint (Pos.to_uint p)) as E
      by (by destruct (Pos.to_uint p)).
    rewrite E in *.
    destruct (NilEmpty.string_of_uint (Pos.to_uint p)) as [|c rest] eqn:Hs;
      [by destruct (Pos.to_uint p)|].
    simpl in Hdig. apply Forall_cons in Hdig as [Hc _].
    destruct (Ascii.eqb_spec c "+") as [->|_]; [by destruct Hc|].
    destruct (Ascii.eqb_spec c "-") as [->|_]; [by destruct Hc|].
    rewrite Husu. unfold Z.of_uint.
    rewrite DecimalPos.Unsigned.of_to. simpl.
    destruct (Z.leb_spec (2 ^ (bitSize - 1)) (Z.pos p)); [done|].
    destruct (Z.ltb_spec (Z.pos p) (- 2 ^ (bitSize - 1))); [lia|]. done.
  - pose proof (DecimalPos.Unsigned.to_uint_nonnil p) as Hnn.
    pose proof (NilZero.usu _ Hnn) as Husu.
    unfold NilZero.string_of_int. simpl.
    rewrite Husu. unfold Z.of_uint.
    rewrite DecimalPos.Unsigned.of_to. simpl.
    destruct (Z.leb_spec (2 ^ (bitSize - 1)) (Z.neg p)); [lia|].
    destruct (Z.ltb_spec (2 ^ (bitSize - 1)) (Z.pos p));
      destruct (Z.ltb_spec (Z.neg p) (- 2 ^ (bitSize - 1))); try lia; done.
Qed.

End NumeralFacts.

(** X18: A decimal integer followed by a percent sign parses to the integer,
    whatever follows the sign; so does the integer alone.  Negative values
    and values above 100 are accepted as long as they fit the bit size. *)
Theorem percent_reads_back n rest bitSize :
  1 ≤ bitSize ≤ 64 →
  - 2 ^ (bitSize - 1) ≤ n < 2 ^ (bitSize - 1) →
  parsePercentToInt (Str.itoa n +:+ "%" +:+ rest) bitSize = (n, None)
  ∧ parsePercentToInt (Str.itoa n) bitSize = (n, None).
Proof.
  intros Hbits Hrange. unfold parsePercentToInt.
  change ("%" +:+ rest) with (String "%" rest).
  rewrite NumeralFacts.Index1_app by apply NumeralFacts.itoa_no_percent.
  rewrite NumeralFacts.Index1_absent by apply NumeralFacts.itoa_no_percent.
  destruct (Z.ltb_spec (Z.of_nat (String.length (Str.itoa n))) 0) as [?|_]; [lia|].
  rewrite Nat2Z.id, StrFacts.take_app. simpl.
  rewrite NumeralFacts.ParseInt_itoa by done.
  destruct (Z.leb_spec (2 ^ (bitSize - 1)) n); [lia|].
  destruct (Z.ltb_spec n (- 2 ^ (bitSize - 1))); [lia|]. done.
Qed.

(** X19: An integer that does not fit the bit size is refused with a range
    error, and the value returned with the error is 0, not the bound that
    [ParseInt] gave. *)
Theorem percent_out_of_range n rest bitSize :
  1 ≤ bitSize ≤ 64 →
  n < - 2 ^ (bitSize - 1) ∨ 2 ^ (bitSize - 1) ≤ n →
  parsePercentToInt (Str.itoa n +:+ "%" +:+ rest) bitSize
  = (0, Some strconv.ErrRange).
Proof.
  intros Hbits Hrange. unfold parsePercentToInt.
  assert (0 < 2 ^ (bitSize - 1)) as Hpow by (apply Z.pow_pos_nonneg; lia).
  change ("%" +:+ rest) with (String "%" rest).
  rewrite NumeralFacts.Index1_app by apply NumeralFacts.itoa_no_percent.
  destruct (Z.ltb_spec (Z.of_nat (String.length (Str.itoa n))) 0) as [?|_]; [lia|].
  rewrite Nat2Z.id, StrFacts.take_app.
  rewrite NumeralFacts.ParseInt_itoa by done.
  destruct (Z.leb_spec (2 ^ (bitSize - 1)) n); [done|].
  destruct (Z.ltb_spec n (- 2 ^ (bitSize - 1))); [done|lia].
Qed.

(** X20: Whatever the text, a value that [parsePercentToInt] returns without an
    error fits the bit size, and a value returned with an error is 0. *)
Theorem percent_result_fits s bitSize p err :
  1 ≤ bitSize ≤ 64 →
  parsePercentToInt s bitSize = (p, err) →
  match err with
  | None => - 2 ^ (bitSize - 1) ≤ p < 2 ^ (bitSize - 1)
  | Some _ => p = 0
  end.
Proof.
  intros Hbits.
  assert (∀ t, match strconv.ParseInt t bitSize with
               | (q, None) => - 2 ^ (bitSize - 1) ≤ q < 2 ^ (bitSize - 1)
               | (q, Some _) => True
               end) as Hparse.
  { intros t. unfold strconv.ParseInt.
    destruct (Z.eqb_spec bitSize 0) as [?|_]; [lia|].
    destruct t as [|c rest]; [done|].
    destruct (NilZero.uint_of_string _) as [d|]; [|done].
    assert (0 ≤ Z.of_uint d) as Hun by (unfold Z.of_uint; lia).
    destruct (Ascii.eqb c "-"); simpl.
    - destruct (Z.ltb_spec (2 ^ (bitSize - 1)) (Z.of_uint d)); [done|]. lia.
    - destruct (Z.leb_spec (2 ^ (bitSize - 1)) (Z.of_uint d)); [done|]. lia. }
  unfold parsePercentToInt.
  destruct (Text.Index1 s "%" <? 0).
  - specialize (Hparse s). destruct (strconv.ParseInt s bitSize) as [q [e|]].
    + by intros [= <- <-].
    + by intros [= <- <-].
  - specialize (Hparse (Str.take (Z.to_nat (Text.Index1 s "%")) s)).
    destruct (strconv.ParseInt _ bitSize) as [q [e|]].
    + by intros [= <- <-].
    + by intros [= <- <-].
Qed.

Lemma percent_reads_back_witness :
  parsePercentToInt (Str.itoa 15 +:+ "%" +:+ " of the disk") 64 = (15, None)
  ∧ parsePercentToInt (Str.itoa 15) 64 = (15, None).
Proof. apply percent_reads_back; [lia | by vm_compute]. Defined.

Lemma percent_out_of_range_witness :
  parsePercentToInt (Str.itoa 9223372036854775808 +:+ "%" +:+ "") 64
  = (0, Some strconv.ErrRange).
Proof.
  apply percent_out_of_range; [lia | right; by vm_compute].
Defined.

Lemma percent_result_fits_witness :
  - 2 ^ (64 - 1) ≤ -5 < 2 ^ (64 - 1).
Proof.
  apply (percent_result_fits "-5%" 64 (-5) None); [lia | by vm_compute].
Defined.

(** * The build script: [releaseTag] *)

(** [releaseTag(version)]; [MINIO_RELEASE] is the value of the environment
    variable of that name, empty when it is not set. *)
Definition releaseTag (MINIO_RELEASE version : string) : string :=
  let relPrefix :=
    if negb (String.eqb MINIO_RELEASE "") then MINIO_RELEASE else "UNOFFICIAL" in
  let relTag := Text.Replace1 version " " "-" in
  let relTag := Text.Replace1 relTag ":" "-" in
  let relTag := Text.Replace1 relTag "," "" in
  relPrefix +:+ "." +:+ relTag.

Module ReplaceFacts.

(** A byte that is neither in the text nor in the replacement is not in
    the result. *)
Lemma Replace1_keeps_out s c new x :
  Forall (λ a, a ≠ x) (Str.to_list s) →
  Forall (λ a, a ≠ x) (Str.to_list new) →
  Forall (λ a, a ≠ x) (Str.to_list (Text.Replace1 s c new)).
Proof.
  intros Hs Hnew. induction s as [|a s IH]; simpl; [constructor|].
  simpl in Hs. apply Forall_cons in Hs as [Ha Hs].
  rewrite StrFacts.to_list_app. apply Forall_app. split; [|by apply IH].
  destruct (Ascii.eqb a c); [done|]. simpl. by constructor.
Qed.

(** The byte that is replaced is gone, unless the replacement brings it
    back. *)
Lemma Replace1_removes s c new :
  Forall (λ a, a ≠ c) (Str.to_list new) →
  Forall (λ a, a ≠ c) (Str.to_list (Text.Replace1 s c new)).
Proof.
  intros Hnew. induction s as [|a s IH]; simpl; [constructor|].
  rewrite StrFacts.to_list_app. apply Forall_app. split; [|done].
  destruct (Ascii.eqb_spec a c); [done|]. simpl. by constructor.
Qed.

(** A text without the byte is left as it is. *)
Lemma Replace1_absent s c new :
  Forall (λ a, a ≠ c) (Str.to_list s) → Text.Replace1 s c new = s.
Proof.
  induction s as [|a s IH]; intros Hs; simpl; [done|].
  simpl in Hs. apply Forall_cons in Hs as [Ha Hs].
  destruct (Ascii.eqb_spec a c); [done|].
  by rewrite StrFacts.app_cons, StrFacts.app_nil_l, IH.
Qed.

(** A replacement of at most one byte does not make the text longer, and
    a replacement of exactly one byte keeps its length. *)
Lemma Replace1_length s c new :
  (String.length new ≤ 1)%nat →
  (String.length (Text.Replace1 s c new) ≤ String.length s)%nat.
Proof.
  intros Hnew. induction s as [|a s IH]; simpl; [done|].
  rewrite StrFacts.length_app. destruct (Ascii.eqb a c); simpl; lia.
Qed.

Lemma Replace1_same_length s c new :
  String.length new = 1%nat →
  String.length (Text.Replace1 s c new) = String.length s.
Proof.
  intros Hnew. induction s as [|a s IH]; simpl; [done|].
  rewrite StrFacts.length_app. destruct (Ascii.eqb a c); simpl; lia.
Qed.

End ReplaceFacts.

(** X21: The tag of a release is the prefix ([MINIO_RELEASE], or [UNOFFICIAL]
    when that is empty), a dot, and the version with every space and colon
    turned into a dash and every comma dropped: the part after the dot
    holds no space, colon or comma, is never longer than the version, has
    the length of the version when the version has no comma, and is the
    version itself when the version holds none of the three. *)
Theorem release_tag_is_clean MINIO_RELEASE version :
  let unwanted (a : ascii) := a = " "%char ∨ a = ":"%char ∨ a = ","%char in
  ∃ relTag,
    releaseTag MINIO_RELEASE version
    = (if decide (MINIO_RELEASE = "") then "UNOFFICIAL" else MINIO_RELEASE)
      +:+ "." +:+ relTag
    ∧ Forall (λ a, ¬ unwanted a) (Str.to_list relTag)
    ∧ (String.length relTag ≤ String.length version)%nat
    ∧ (Forall (λ a, a ≠ ","%char) (Str.to_list version) →
       String.length relTag = String.length version)
    ∧ (Forall (λ a, ¬ unwanted a) (Str.to_list version) → relTag = version).
Proof.
  intros unwanted. unfold releaseTag.
  set (t1 := Text.Replace1 version " " "-").
  set (t2 := Text.Replace1 t1 ":" "-").
  set (t3 := Text.Replace1 t2 "," "").
  exists t3. split; [|split; [|split; [|split]]].
  - destruct (decide (MINIO_RELEASE = "")) as [->|Hne]; [done|].
    by rewrite (StrFacts.eqb_false_ne _ _ Hne).
  - assert (Forall (λ a, a ≠ " "%char) (Str.to_list t3)) as Hspace.
    { do 2 (apply ReplaceFacts.Replace1_keeps_out; [|by repeat constructor]).
      apply ReplaceFacts.Replace1_removes. by repeat constructor. }
    assert (Forall (λ a, a ≠ ":"%char) (Str.to_list t3)) as Hcolon.
    { apply ReplaceFacts.Replace1_keeps_out; [|by repeat constructor].
      apply ReplaceFacts.Replace1_removes. by repeat constructor. }
    assert (Forall (λ a, a ≠ ","%char) (Str.to_list t3)) as Hcomma.
    { apply ReplaceFacts.Replace1_removes. constructor. }
    rewrite Forall_forall in *. intros a Ha [-> | [-> | ->]].
    + by apply (Hspace " "%char).
    + by apply (Hcolon ":"%char).
    + by apply (Hcomma ","%char).
  - unfold t3, t2, t1.
    etrans; [apply ReplaceFacts.Replace1_length; simpl; lia|].
    by rewrite !ReplaceFacts.Replace1_same_length.
  - intros Hv. unfold t3.
    rewrite ReplaceFacts.Replace1_absent.
    + unfold t2, t1. by rewrite !ReplaceFacts.Replace1_same_length.
    + unfold t2, t1.
      do 2 (apply ReplaceFacts.Replace1_keeps_out; [|by repeat constructor]).
      done.
  - intros Hv. unfold t3, t2, t1.
    assert (∀ c, unwanted c → Forall (λ a, a ≠ c) (Str.to_list version)) as Hc.
    { intros c Hu. eapply Forall_impl; [exact Hv|]. by intros a Ha ->. }
    rewrite (ReplaceFacts.Replace1_absent version) by (apply Hc; by left).
    rewrite (ReplaceFacts.Replace1_absent version) by (apply Hc; right; by left).
    apply ReplaceFacts.Replace1_absent, Hc. right. by right.
Qed.

(** The tag of an unofficial build made at a given time, evaluated. *)
Lemma release_tag_of_a_time :
  releaseTag "" "2015-10-20T22:09:18Z" = "UNOFFICIAL.2015-10-20T22-09-18Z".
Proof. by vm_compute. Qed.

(** * Temp files do not outlive the call *)

Section Temps.
Context `{Platform}.


End Temps.
